(** * Keepalive extension of the ComfyUI manager: event-loop model

    A shallow embedding of [comfyui-manager-keepalive/js/keepalive.js]
    (the variant with the status notification and the recovery poller).

    The script runs on the browser's single-threaded event loop.  Every
    piece of JavaScript that runs to completion without yielding is one
    function on an explicit [State]:

    - the two module variables [pingInterval] and [notificationEl];
    - the part of the host the script touches: [document.hidden], the
      elements it created and the children of [document.body], the timer
      table ([setTimeout], [setInterval], [clearInterval]) and the
      requests in flight ([fetch]);
    - a virtual clock in milliseconds, read by the timer primitives.

    An [async] function is split at its [await]: the part before it issues
    the request and registers a continuation, the part after it runs when
    the environment delivers the outcome of the request.

    Every request is the same POST to [getManagerPingUrl()], so a request
    is recorded by when and by whom it was sent, not by its URL.  Timers
    are ideal: a timer fires at the instant it is due. *)

From Stdlib Require Import List String NArith Arith Bool Lia Permutation.
From Stdlib Require Import DecimalString.
Import ListNotations.
Open Scope string_scope.
Open Scope list_scope.

(** ** Constants of the script *)

Definition PING_INTERVAL : N := 60000.
Definition FETCH_TIMEOUT : N := 5000.   (* AbortSignal.timeout(5000) *)
Definition POLL_DELAY : N := 2000.      (* setTimeout(poll, 2000) *)
Definition READY_DELAY : N := 2000.     (* setTimeout(hideNotification, 2000) *)
Definition FADE_DELAY : N := 300.       (* setTimeout(() => ..., 300) *)

Definition MSG_STARTING : string := "ComfyUI is starting up... Please wait.".
Definition MSG_READY : string := "ComfyUI is ready!".
Definition CSS_INFO : string := "background: #1e40af; color: white;".
Definition CSS_OTHER : string := "background: #166534; color: white;".

(** ** Data *)

(** The [div] built by [showNotification]: its text, the type-dependent
    part of [style.cssText], and [style.opacity] (empty until
    [hideNotification] sets it to ["0"]). *)
Record Element := mkElement {
  textContent : string;
  cssText : string;
  opacity : string
}.

(** What a timer runs.  [CbFade] is the arrow function that
    [hideNotification] hands to [setTimeout]; [CbPoll sid] is the [poll]
    closure of the poll session [sid]. *)
Inductive Callback :=
| CbPing
| CbFade
| CbHideNotification
| CbPoll (sid : nat).

(** Who awaits a request: the body of [ping], or [checkState] inside the
    poll session [sid]. *)
Inductive Cont :=
| KPing
| KPoll (sid : nat).

Record Timer := mkTimer {
  t_id : nat;
  t_due : N;
  t_cb : Callback;
  t_period : option N        (* [Some p] for [setInterval] *)
}.

Record Fetch := mkFetch {
  f_id : nat;
  f_sent : N;
  f_cont : Cont
}.

(** One POST to the ping endpoint, as seen on the network. *)
Record Request := mkRequest {
  rq_time : N;
  rq_from : Cont
}.

(** The outcome of [await fetch(...)] followed by [await response.json()]
    and the read of [data.state]: either something throws (network
    failure, timeout, unparsable body, [data] not an object), or the
    field is read, [None] standing for [undefined]. *)
Inductive Outcome :=
| Throws
| Body (state : option string).

Inductive LogLine :=
| LogPingSent (state : option string)
| LogPingFailed
| LogLoaded.

Record State := mkState {
  now : N;
  hidden : bool;                    (* document.hidden *)
  pingInterval : option nat;        (* null, or a timer handle *)
  notificationEl : option nat;      (* null, or a reference into [heap] *)
  heap : list Element;              (* every element created so far *)
  body : list nat;                  (* children of document.body *)
  timers : list Timer;
  next_timer : nat;
  fetches : list Fetch;             (* requests in flight *)
  requests : list Request;          (* every request sent so far *)
  console : list LogLine
}.

(** ** Field updates *)

Definition set_now (v : N) (s : State) : State :=
  mkState v (hidden s) (pingInterval s) (notificationEl s) (heap s) (body s)
          (timers s) (next_timer s) (fetches s) (requests s) (console s).

Definition set_hidden (v : bool) (s : State) : State :=
  mkState (now s) v (pingInterval s) (notificationEl s) (heap s) (body s)
          (timers s) (next_timer s) (fetches s) (requests s) (console s).

Definition set_pingInterval (v : option nat) (s : State) : State :=
  mkState (now s) (hidden s) v (notificationEl s) (heap s) (body s)
          (timers s) (next_timer s) (fetches s) (requests s) (console s).

Definition set_notificationEl (v : option nat) (s : State) : State :=
  mkState (now s) (hidden s) (pingInterval s) v (heap s) (body s)
          (timers s) (next_timer s) (fetches s) (requests s) (console s).

Definition set_heap (v : list Element) (s : State) : State :=
  mkState (now s) (hidden s) (pingInterval s) (notificationEl s) v (body s)
          (timers s) (next_timer s) (fetches s) (requests s) (console s).

Definition set_body (v : list nat) (s : State) : State :=
  mkState (now s) (hidden s) (pingInterval s) (notificationEl s) (heap s) v
          (timers s) (next_timer s) (fetches s) (requests s) (console s).

Definition set_timers (v : list Timer) (s : State) : State :=
  mkState (now s) (hidden s) (pingInterval s) (notificationEl s) (heap s) (body s)
          v (next_timer s) (fetches s) (requests s) (console s).

Definition set_next_timer (v : nat) (s : State) : State :=
  mkState (now s) (hidden s) (pingInterval s) (notificationEl s) (heap s) (body s)
          (timers s) v (fetches s) (requests s) (console s).

Definition set_fetches (v : list Fetch) (s : State) : State :=
  mkState (now s) (hidden s) (pingInterval s) (notificationEl s) (heap s) (body s)
          (timers s) (next_timer s) v (requests s) (console s).

Definition set_requests (v : list Request) (s : State) : State :=
  mkState (now s) (hidden s) (pingInterval s) (notificationEl s) (heap s) (body s)
          (timers s) (next_timer s) (fetches s) v (console s).

Definition console_log (l : LogLine) (s : State) : State :=
  mkState (now s) (hidden s) (pingInterval s) (notificationEl s) (heap s) (body s)
          (timers s) (next_timer s) (fetches s) (requests s) (console s ++ [l]).

(** ** Host primitives *)

Section ListHelpers.
Context {A : Type}.

(** First entry satisfying [p]. *)
Definition lookup_by (p : A -> bool) (l : list A) : option A := find p l.

(** Drops the first entry satisfying [p]. *)
Fixpoint remove_by (p : A -> bool) (l : list A) : list A :=
  match l with
  | [] => []
  | x :: r => if p x then r else x :: remove_by p r
  end.

(** Rewrites the first entry satisfying [p]. *)
Fixpoint update_by (p : A -> bool) (f : A -> A) (l : list A) : list A :=
  match l with
  | [] => []
  | x :: r => if p x then f x :: r else x :: update_by p f r
  end.

(** Rewrites the entry at position [n], if there is one. *)
Fixpoint update_nth (n : nat) (f : A -> A) (l : list A) : list A :=
  match l, n with
  | [], _ => []
  | x :: r, O => f x :: r
  | x :: r, S k => x :: update_nth k f r
  end.
End ListHelpers.

Definition has_tid (id : nat) (t : Timer) : bool := Nat.eqb (t_id t) id.
Definition has_fid (id : nat) (f : Fetch) : bool := Nat.eqb (f_id f) id.

(** [setTimeout(cb, delay)]: a fresh handle, due [delay] ms from now. *)
Definition setTimeout (cb : Callback) (delay : N) (s : State) : nat * State :=
  let id := next_timer s in
  (id, set_next_timer (S id)
         (set_timers (timers s ++ [mkTimer id (now s + delay) cb None]) s)).

(** [setInterval(cb, period)]. *)
Definition setInterval (cb : Callback) (period : N) (s : State) : nat * State :=
  let id := next_timer s in
  (id, set_next_timer (S id)
         (set_timers (timers s ++ [mkTimer id (now s + period) cb (Some period)]) s)).

(** [clearInterval(id)]: silently does nothing for an unknown handle. *)
Definition clearInterval (id : nat) (s : State) : State :=
  set_timers (remove_by (has_tid id) (timers s)) s.

(** [fetch(url, {method: 'POST', ..., signal: AbortSignal.timeout(5000)})]
    up to the [await]: the request leaves, the continuation [k] is parked.
    A request is numbered by its position in the log of requests. *)
Definition fetch (k : Cont) (s : State) : State :=
  let id := List.length (requests s) in
  set_requests (requests s ++ [mkRequest (now s) k])
    (set_fetches (fetches s ++ [mkFetch id (now s) k]) s).

(** [el.remove()]: detaches the element from [document.body]. *)
Definition el_remove (e : nat) (s : State) : State :=
  set_body (filter (fun x => negb (Nat.eqb x e)) (body s)) s.

(** [el.style.opacity = v]. *)
Definition el_set_opacity (e : nat) (v : string) (s : State) : State :=
  set_heap (update_nth e (fun el => mkElement (textContent el) (cssText el) v) (heap s)) s.

(** ** The script *)

(** The declarations of [cssText] that depend on the type:
    [type === 'info' ? ... : ...]. *)
Definition css_of (type : string) : string :=
  if String.eqb type "info" then CSS_INFO else CSS_OTHER.

(** [showNotification(message, type = 'info')]. *)
Definition showNotification (message type : string) (s : State) : State :=
  let s1 := match notificationEl s with
            | Some e => el_remove e s
            | None => s
            end in
  let e := List.length (heap s1) in
  set_body (body s1 ++ [e])
    (set_heap (heap s1 ++ [mkElement message (css_of type) ""])
       (set_notificationEl (Some e) s1)).

(** [hideNotification()]. *)
Definition hideNotification (s : State) : State :=
  match notificationEl s with
  | Some e => snd (setTimeout CbFade FADE_DELAY (el_set_opacity e "0" s))
  | None => s
  end.

(** The arrow function scheduled by [hideNotification]: it reads the
    module variable [notificationEl] when it runs. *)
Definition fade_callback (s : State) : State :=
  match notificationEl s with
  | Some e => set_notificationEl None (el_remove e s)
  | None => s
  end.

(** [data.state === v]. *)
Definition state_is (st : option string) (v : string) : bool :=
  match st with
  | Some x => String.eqb x v
  | None => false
  end.

(** [poll()] of session [sid] up to the [await] inside [checkState]. *)
Definition poll (sid : nat) (s : State) : State := fetch (KPoll sid) s.

(** [pollUntilRunning()]: builds the closures and calls [poll()] once.
    The session is named after the number of its first request. *)
Definition pollUntilRunning (s : State) : State :=
  poll (List.length (requests s)) s.

(** [checkState] after its [await]: the new state and the value it
    resolves to. *)
Definition checkState_resume (o : Outcome) (s : State) : State * bool :=
  match o with
  | Throws => (s, true)
  | Body st =>
      if state_is st "running" then
        (snd (setTimeout CbHideNotification READY_DELAY
                (showNotification MSG_READY "success" s)), true)
      else if state_is st "starting" then (s, false)
      else (hideNotification s, true)
  end.

(** [poll] of session [sid] after [await checkState()]. *)
Definition poll_resume (sid : nat) (o : Outcome) (s : State) : State :=
  let (s1, done) := checkState_resume o s in
  if done then s1 else snd (setTimeout (CbPoll sid) POLL_DELAY s1).

(** [ping()] up to its [await]. *)
Definition ping (s : State) : State :=
  if hidden s then s else fetch KPing s.

(** [ping()] after its [await]s. *)
Definition ping_resume (o : Outcome) (s : State) : State :=
  match o with
  | Throws => console_log LogPingFailed s
  | Body st =>
      let s1 :=
        if state_is st "starting" then
          pollUntilRunning (showNotification MSG_STARTING "info" s)
        else if state_is st "running" then hideNotification s
        else s in
      console_log (LogPingSent st) s1
  end.

(** [startPinging()]. *)
Definition startPinging (s : State) : State :=
  let s1 := ping s in
  match pingInterval s1 with
  | None =>
      let (id, s2) := setInterval CbPing PING_INTERVAL s1 in
      set_pingInterval (Some id) s2
  | Some _ => s1
  end.

(** [stopPinging()]. *)
Definition stopPinging (s : State) : State :=
  match pingInterval s with
  | Some id => set_pingInterval None (clearInterval id s)
  | None => s
  end.

(** The [visibilitychange] listener. *)
Definition on_visibilitychange (s : State) : State :=
  if hidden s then stopPinging s else startPinging s.

(** [setup()] of the registered extension. *)
Definition setup (s : State) : State :=
  console_log LogLoaded (startPinging s).

(** The state once the module has been evaluated: both module variables
    are [null], nothing is scheduled, timer handles start at 1. *)
Definition module_loaded (h : bool) : State :=
  mkState 0 h None None [] [] [] 1 [] [] [].

Definition init (h : bool) : State := setup (module_loaded h).

(** ** The event loop *)

Definition run_callback (cb : Callback) (s : State) : State :=
  match cb with
  | CbPing => ping s
  | CbFade => fade_callback s
  | CbHideNotification => hideNotification s
  | CbPoll sid => poll sid s
  end.

Definition rearm (p : N) (t : Timer) : Timer :=
  mkTimer (t_id t) (t_due t + p) (t_cb t) (t_period t).

(** The timer [id] fires: a timeout leaves the table, an interval is
    re-armed one period later; then the callback runs. *)
Definition fire (id : nat) (s : State) : option State :=
  match lookup_by (has_tid id) (timers s) with
  | None => None
  | Some t =>
      let ts := match t_period t with
                | Some p => update_by (has_tid id) (rearm p) (timers s)
                | None => remove_by (has_tid id) (timers s)
                end in
      Some (run_callback (t_cb t) (set_timers ts s))
  end.

(** The request [id] settles with outcome [o]: its continuation runs. *)
Definition deliver (id : nat) (o : Outcome) (s : State) : option State :=
  match lookup_by (has_fid id) (fetches s) with
  | None => None
  | Some f =>
      let s1 := set_fetches (remove_by (has_fid id) (fetches s)) s in
      Some (match f_cont f with
            | KPing => ping_resume o s1
            | KPoll sid => poll_resume sid o s1
            end)
  end.

(** The tab changes visibility: the flag flips, the listener runs. *)
Definition visibility (h : bool) (s : State) : State :=
  on_visibilitychange (set_hidden h s).

Definition elapse (dt : N) (s : State) : State := set_now (now s + dt) s.

Inductive Event :=
| EvWait (dt : N)
| EvTimer (id : nat)
| EvResponse (id : nat) (o : Outcome)
| EvVisibility (h : bool).

Definition is_throws (o : Outcome) : bool :=
  match o with Throws => true | Body _ => false end.

(** Time may pass only up to the next deadline: no timer is late and no
    request outlives its 5 s budget. *)
Definition may_elapse (dt : N) (s : State) : bool :=
  forallb (fun t => N.leb (now s + dt) (t_due t)) (timers s)
  && forallb (fun f => N.leb (now s + dt) (f_sent f + FETCH_TIMEOUT)) (fetches s).

(** One turn of the event loop.  [None]: the event cannot happen in [s].
    A timer fires when it is due; a request settles within its budget,
    and when the budget is spent it can only fail; [visibilitychange] is
    dispatched on an actual change. *)
Definition step (s : State) (e : Event) : option State :=
  match e with
  | EvWait dt => if may_elapse dt s then Some (elapse dt s) else None
  | EvTimer id =>
      match lookup_by (has_tid id) (timers s) with
      | Some t => if N.eqb (t_due t) (now s) then fire id s else None
      | None => None
      end
  | EvResponse id o =>
      match lookup_by (has_fid id) (fetches s) with
      | Some f =>
          if N.ltb (now s) (f_sent f + FETCH_TIMEOUT) || is_throws o
          then deliver id o s else None
      | None => None
      end
  | EvVisibility h =>
      if Bool.eqb h (hidden s) then None else Some (visibility h s)
  end.

Fixpoint run (s : State) (evs : list Event) : option State :=
  match evs with
  | [] => Some s
  | e :: r => match step s e with
              | Some s' => run s' r
              | None => None
              end
  end.

(** States the script can be in: [setup] ran on a tab that was hidden or
    not, then the event loop turned some number of times. *)
Definition reachable (s : State) : Prop :=
  exists h evs, run (init h) evs = Some s.

(** ** Observations *)

(** What the user sees: the elements attached to [document.body]. *)
Definition visible (s : State) : list Element :=
  flat_map (fun e => match nth_error (heap s) e with
                     | Some el => [el]
                     | None => []
                     end) (body s).

Definition timer_sid (t : Timer) : list nat :=
  match t_cb t with CbPoll sid => [sid] | _ => [] end.

Definition fetch_sid (f : Fetch) : list nat :=
  match f_cont f with KPoll sid => [sid] | KPing => [] end.

(** A poll session is active while its next attempt is in flight or
    scheduled; once neither is the case nothing can ever resume it. *)
Definition active_sessions (s : State) : list nat :=
  flat_map fetch_sid (fetches s) ++ flat_map timer_sid (timers s).

Definition is_ping_timer (t : Timer) : bool :=
  match t_cb t with CbPing => true | _ => false end.

(** The live timers of the heartbeat loop. *)
Definition ping_timers (s : State) : list Timer :=
  filter is_ping_timer (timers s).

Definition is_heartbeat (r : Request) : bool :=
  match rq_from r with KPing => true | KPoll _ => false end.

Definition is_poll_of (sid : nat) (r : Request) : bool :=
  match rq_from r with KPoll x => Nat.eqb x sid | KPing => false end.

(** The requests sent by [ping], and the attempts of one poll session. *)
Definition heartbeats (s : State) : list Request := filter is_heartbeat (requests s).
Definition attempts (sid : nat) (s : State) : list Request :=
  filter (is_poll_of sid) (requests s).

(** The heartbeat loop is the same in [s] and [s']: visibility flag,
    module variable, live timers and requests sent. *)
Definition same_heartbeat (s s' : State) : Prop :=
  hidden s' = hidden s /\ pingInterval s' = pingInterval s /\
  ping_timers s' = ping_timers s /\ heartbeats s' = heartbeats s.

(** ** Calls into the overlay from outside the script's own control flow *)

(** [showNotification] and [hideNotification] are the two entry points of
    the overlay.  To speak about arbitrary sequences of calls, possibly
    interleaved with turns of the event loop, a sequence of [Action]s is
    run from a state. *)
Inductive Action :=
| CallShow (message type : string)
| CallHide
| Turn (e : Event).

Definition act (s : State) (a : Action) : option State :=
  match a with
  | CallShow m ty => Some (showNotification m ty s)
  | CallHide => Some (hideNotification s)
  | Turn e => step s e
  end.

Fixpoint acts (s : State) (l : list Action) : option State :=
  match l with
  | [] => Some s
  | a :: r => match act s a with
              | Some s' => acts s' r
              | None => None
              end
  end.

(** States reachable when, besides the event loop turning, the overlay
    is also called with arbitrary arguments. *)
Definition api_reachable (s : State) : Prop :=
  exists h l, acts (init h) l = Some s.

(** ** One poll session followed on its own *)

Definition awaits_poll (sid : nat) (f : Fetch) : bool :=
  match f_cont f with KPoll x => Nat.eqb x sid | KPing => false end.

Definition runs_poll (sid : nat) (t : Timer) : bool :=
  match t_cb t with CbPoll x => Nat.eqb x sid | _ => false end.

(** The attempt of session [sid] that is in flight, and the timer that
    will start its next attempt. *)
Definition session_fetch (sid : nat) (s : State) : option Fetch :=
  lookup_by (awaits_poll sid) (fetches s).

Definition session_timer (sid : nat) (s : State) : option Timer :=
  lookup_by (runs_poll sid) (timers s).

(** One round of session [sid]: the attempt in flight settles with [o]
    after [lat] ms; if [poll] then schedules a further attempt, time moves
    on to that timer and it fires.  [None] when there is no attempt in
    flight to settle, that is, when the session is over.  Only the
    session's own continuation and callback run here: what the rest of
    the script does in between is left out, it has no handle on them. *)
Definition session_round (sid : nat) (lat : N) (o : Outcome) (s : State)
  : option State :=
  match session_fetch sid s with
  | None => None
  | Some f =>
      match deliver (f_id f) o (elapse lat s) with
      | None => None
      | Some s1 =>
          match session_timer sid s1 with
          | Some t => fire (t_id t) (set_now (t_due t) s1)
          | None => Some s1
          end
      end
  end.

Fixpoint session_run (sid : nat) (outs : list (N * Outcome)) (s : State)
  : option State :=
  match outs with
  | [] => Some s
  | (lat, o) :: r =>
      match session_round sid lat o s with
      | Some s' => session_run sid r s'
      | None => None
      end
  end.

(** ** Backend answers and scenarios *)

Definition starting : Outcome := Body (Some "starting").
Definition running : Outcome := Body (Some "running").

(** An outcome on which [checkState] resolves to [true]. *)
Definition ends_session (o : Outcome) : bool :=
  match o with
  | Throws => true
  | Body st =>
      if state_is st "running" then true
      else if state_is st "starting" then false
      else true
  end.

(** The states after each event of a trace. *)
Fixpoint states_along (s : State) (evs : list Event) : option (list State) :=
  match evs with
  | [] => Some []
  | e :: r =>
      match step s e with
      | Some s' => option_map (cons s') (states_along s' r)
      | None => None
      end
  end.

(** The first heartbeat is answered "starting" after [l0] ms, the first
    poll attempt "starting" after [l1] ms, the second "running" after
    [l2] ms; then the two timers of the "ready" notice run out. *)
Definition scenario_B (l0 l1 l2 : N) : list Event :=
  [ EvWait l0; EvResponse 0 starting;
    EvWait l1; EvResponse 1 starting;
    EvWait POLL_DELAY; EvTimer 2;
    EvWait l2; EvResponse 2 running;
    EvWait READY_DELAY; EvTimer 3;
    EvWait FADE_DELAY; EvTimer 4 ].

Definition notice_starting : Element := mkElement MSG_STARTING CSS_INFO "".
Definition notice_ready : Element := mkElement MSG_READY CSS_OTHER "".
Definition notice_ready_faded : Element := mkElement MSG_READY CSS_OTHER "0".

(** The tab is left and entered again while the first session polls, and
    the heartbeat sent on return is answered "starting" as well. *)
Definition two_sessions_trace : list Event :=
  [ EvWait 120; EvResponse 0 starting;
    EvWait 10; EvVisibility true;
    EvWait 10; EvVisibility false;
    EvWait 50; EvResponse 2 starting ].

(** The backend keeps answering "starting" for more than a minute: the
    session polls 29 times, then the 60 s tick of the heartbeat fires and
    is answered "starting" too. *)
Definition poll_rounds (n : nat) : list Event :=
  flat_map (fun k => [EvResponse (1 + k) starting; EvWait POLL_DELAY; EvTimer (2 + k)])
           (seq 0 n).

Definition slow_start_trace : list Event :=
  [EvWait 100; EvResponse 0 starting] ++ poll_rounds 29
  ++ [EvWait 1900; EvTimer 1; EvResponse 31 starting].

(** A session whose first attempt fails. *)
Definition failed_poll_trace : list Event :=
  [ EvWait 120; EvResponse 0 starting;
    EvWait 5000; EvResponse 1 Throws ].

(** A notice is shown and hidden; 100 ms into the fade a second one is
    shown; the fade timer fires at its 300 ms. *)
Definition show_during_fade : list Action :=
  [ CallShow "first" "info"; CallHide;
    Turn (EvWait 100); CallShow "second" "info";
    Turn (EvWait 200); Turn (EvTimer 2) ].

(** The same inside the script: the heartbeat sent on re-entering the tab
    is answered "running" shortly before the poll session gets "running". *)
Definition ready_cut_short_trace : list Event :=
  [ EvWait 100; EvResponse 0 starting;
    EvWait 50; EvVisibility true;
    EvWait 10; EvVisibility false;
    EvWait 40; EvResponse 2 running;
    EvWait 100; EvResponse 1 running;
    EvWait 200; EvTimer 3 ].

(** The state in which the first heartbeat has just been answered
    "starting": the notice is up and session 1 has its first attempt in
    flight. *)
Definition session_started : State :=
  Eval vm_compute in
    match run (init false) [EvWait 100; EvResponse 0 starting] with
    | Some s => s
    | None => init false
    end.

(** ** Invariants *)

(** Structural invariant of the reachable states: handles and request
    numbers are unique and below the next one to be handed out; every
    active session has exactly one attempt in flight or scheduled; the
    body holds exactly the element [notificationEl] refers to; the only
    repeating timer is the heartbeat the module variable [pingInterval]
    refers to. *)
Record Inv (s : State) : Prop := mkInv {
  inv_tid_fresh : forall t, In t (timers s) -> t_id t < next_timer s;
  inv_tid_nodup : NoDup (map t_id (timers s));
  inv_fid_fresh : forall f, In f (fetches s) -> f_id f < List.length (requests s);
  inv_fid_nodup : NoDup (map f_id (fetches s));
  inv_sid_fresh : forall sid, In sid (active_sessions s) ->
                              sid < List.length (requests s);
  inv_sid_nodup : NoDup (active_sessions s);
  inv_body : body s = match notificationEl s with Some e => [e] | None => [] end;
  inv_el : forall e, notificationEl s = Some e -> e < List.length (heap s);
  inv_ping_timer : forall t, In t (timers s) ->
      match t_cb t with
      | CbPing => pingInterval s = Some (t_id t) /\ t_period t = Some PING_INTERVAL
      | _ => t_period t = None
      end;
  inv_ping_live : forall id, pingInterval s = Some id ->
      exists t, In t (timers s) /\ t_id t = id /\ t_cb t = CbPing;
  inv_req_sid : forall r sid, In r (requests s) -> rq_from r = KPoll sid ->
                              sid < List.length (requests s)
}.

(** Any event but a change of visibility. *)
Definition not_visibility (e : Event) : Prop :=
  match e with EvVisibility _ => False | _ => True end.

(** While the tab is visible the heartbeat interval is set. *)
Definition alive (s : State) : Prop :=
  hidden s = false -> pingInterval s <> None.

(** From [s] to [s'] no time has passed and every timer that is new is
    due in the future, a new heartbeat timer exactly one interval ahead
    at most. *)
Definition timers_grow (s s' : State) : Prop :=
  now s' = now s /\
  forall x, In x (timers s') ->
    In x (timers s) \/
    ((now s <= t_due x)%N /\
     (is_ping_timer x = true -> (t_due x <= now s + PING_INTERVAL)%N)).

(** Timing invariant of the runs of the event loop: no timer is overdue
    and the heartbeat is due within one interval. *)
Definition on_time (s : State) : Prop :=
  forall t, In t (timers s) ->
    (now s <= t_due t)%N /\
    (is_ping_timer t = true -> (t_due t <= now s + PING_INTERVAL)%N).

(** ** The URL of the ping endpoint *)

Definition MANAGER_PORT : N := 5000.

(** A number inside a template literal: its decimal digits. *)
Definition decimal (n : N) : string := NilEmpty.string_of_uint (N.to_uint n).

(** [getManagerPingUrl()], as a function of [window.location.hostname]. *)
Definition getManagerPingUrl (hostname : string) : string :=
  String.append "http://"
    (String.append hostname
       (String.append ":"
          (String.append (decimal MANAGER_PORT) "/manager/api/ping"))).

(** ** More observations *)

(** An element after [style.opacity = '0']. *)
Definition faded (el : Element) : Element :=
  mkElement (textContent el) (cssText el) "0".

(** Any event but a response "starting". *)
Definition never_starting (e : Event) : Prop :=
  match e with EvResponse _ o => o <> starting | _ => True end.

(** The poller and the overlay have left no trace: nothing is on
    display, and every timer, request in flight and request sent is the
    heartbeat's. *)
Definition quiet (s : State) : Prop :=
  notificationEl s = None /\ body s = [] /\
  (forall t, In t (timers s) -> t_cb t = CbPing) /\
  (forall f, In f (fetches s) -> f_cont f = KPing) /\
  (forall r, In r (requests s) -> rq_from r = KPing).

(** [session_started] after the tab was left and entered again: a second
    heartbeat is in flight beside the attempt of session 1. *)
Definition tab_reentered : State :=
  Eval vm_compute in
    match run session_started [EvVisibility true; EvVisibility false] with
    | Some s => s
    | None => session_started
    end.

(** The tab is left and entered again, [n] times in a row. *)
Fixpoint toggles (n : nat) : list Event :=
  match n with
  | O => []
  | S k => EvVisibility true :: EvVisibility false :: toggles k
  end.

(** The delay with which the script registers each callback. *)
Definition delay_of (cb : Callback) : N :=
  match cb with
  | CbPing => PING_INTERVAL
  | CbFade => FADE_DELAY
  | CbHideNotification => READY_DELAY
  | CbPoll _ => POLL_DELAY
  end.

(** From [s] to [s'] no time has passed and every timer that is new is
    due exactly one delay of its callback ahead. *)
Definition adds_on_schedule (s s' : State) : Prop :=
  now s' = now s /\
  forall x, In x (timers s') ->
    In x (timers s) \/ t_due x = (now s + delay_of (t_cb x))%N.

(** No timer is further ahead than the delay of its callback. *)
Definition within_delay (s : State) : Prop :=
  forall t, In t (timers s) -> (t_due t <= now s + delay_of (t_cb t))%N.

(** ** The plain variant of the script

    The first variant in [keepalive.js] has the same heartbeat loop but
    neither notification nor poller: [ping] only awaits [fetch] and
    writes one line to the console.  It is modelled on its own state,
    with the timer and request records of the other variant; the only
    callback it ever registers is [ping]. *)
Module Plain.

Inductive LogLine :=
| LogPingSent
| LogPingFailed
| LogLoaded.

(** The outcome of [await fetch(...)]. *)
Inductive Outcome :=
| Rejected
| Resolved.

Record State := mkState {
  now : N;
  hidden : bool;
  pingInterval : option nat;
  timers : list Timer;
  next_timer : nat;
  fetches : list Fetch;
  requests : list Request;
  console : list LogLine
}.

Definition console_log (l : LogLine) (s : State) : State :=
  mkState (now s) (hidden s) (pingInterval s) (timers s) (next_timer s)
          (fetches s) (requests s) (console s ++ [l]).

Definition set_timers (v : list Timer) (s : State) : State :=
  mkState (now s) (hidden s) (pingInterval s) v (next_timer s)
          (fetches s) (requests s) (console s).

Definition set_fetches (v : list Fetch) (s : State) : State :=
  mkState (now s) (hidden s) (pingInterval s) (timers s) (next_timer s)
          v (requests s) (console s).

(** [fetch(url, ...)] up to the [await]. *)
Definition fetch (s : State) : State :=
  mkState (now s) (hidden s) (pingInterval s) (timers s) (next_timer s)
          (fetches s ++ [mkFetch (List.length (requests s)) (now s) KPing])
          (requests s ++ [mkRequest (now s) KPing]) (console s).

(** [ping()] up to its [await]. *)
Definition ping (s : State) : State :=
  if hidden s then s else fetch s.

(** [ping()] after its [await]. *)
Definition ping_resume (o : Outcome) (s : State) : State :=
  match o with
  | Resolved => console_log LogPingSent s
  | Rejected => console_log LogPingFailed s
  end.

(** [startPinging()]. *)
Definition startPinging (s : State) : State :=
  let s1 := ping s in
  match pingInterval s1 with
  | None =>
      mkState (now s1) (hidden s1) (Some (next_timer s1))
              (timers s1 ++ [mkTimer (next_timer s1) (now s1 + PING_INTERVAL)
                                     CbPing (Some PING_INTERVAL)])
              (S (next_timer s1)) (fetches s1) (requests s1) (console s1)
  | Some _ => s1
  end.

(** [stopPinging()]. *)
Definition stopPinging (s : State) : State :=
  match pingInterval s with
  | Some id =>
      mkState (now s) (hidden s) None (remove_by (has_tid id) (timers s))
              (next_timer s) (fetches s) (requests s) (console s)
  | None => s
  end.

(** The [visibilitychange] listener. *)
Definition on_visibilitychange (s : State) : State :=
  if hidden s then stopPinging s else startPinging s.

(** [setup()]. *)
Definition setup (s : State) : State := console_log LogLoaded (startPinging s).

Definition init (h : bool) : State :=
  setup (mkState 0 h None [] 1 [] [] []).

Definition fire (id : nat) (s : State) : option State :=
  match lookup_by (has_tid id) (timers s) with
  | None => None
  | Some t =>
      let ts := match t_period t with
                | Some p => update_by (has_tid id) (rearm p) (timers s)
                | None => remove_by (has_tid id) (timers s)
                end in
      Some (match t_cb t with
            | CbPing => ping (set_timers ts s)
            | _ => set_timers ts s
            end)
  end.

Definition deliver (id : nat) (o : Outcome) (s : State) : option State :=
  match lookup_by (has_fid id) (fetches s) with
  | None => None
  | Some f => Some (ping_resume o (set_fetches (remove_by (has_fid id) (fetches s)) s))
  end.

Inductive Event :=
| EvWait (dt : N)
| EvTimer (id : nat)
| EvResponse (id : nat) (o : Outcome)
| EvVisibility (h : bool).

Definition may_elapse (dt : N) (s : State) : bool :=
  forallb (fun t => N.leb (now s + dt) (t_due t)) (timers s)
  && forallb (fun f => N.leb (now s + dt) (f_sent f + FETCH_TIMEOUT)) (fetches s).

Definition is_rejected (o : Outcome) : bool :=
  match o with Rejected => true | Resolved => false end.

(** One turn of the event loop, under the same rules as for the other
    variant. *)
Definition step (s : State) (e : Event) : option State :=
  match e with
  | EvWait dt =>
      if may_elapse dt s
      then Some (mkState (now s + dt) (hidden s) (pingInterval s) (timers s)
                         (next_timer s) (fetches s) (requests s) (console s))
      else None
  | EvTimer id =>
      match lookup_by (has_tid id) (timers s) with
      | Some t => if N.eqb (t_due t) (now s) then fire id s else None
      | None => None
      end
  | EvResponse id o =>
      match lookup_by (has_fid id) (fetches s) with
      | Some f =>
          if N.ltb (now s) (f_sent f + FETCH_TIMEOUT) || is_rejected o
          then deliver id o s else None
      | None => None
      end
  | EvVisibility h =>
      if Bool.eqb h (hidden s) then None
      else Some (on_visibilitychange
                   (mkState (now s) h (pingInterval s) (timers s) (next_timer s)
                            (fetches s) (requests s) (console s)))
  end.

Fixpoint run (s : State) (evs : list Event) : option State :=
  match evs with
  | [] => Some s
  | e :: r => match step s e with
              | Some s' => run s' r
              | None => None
              end
  end.

End Plain.

(** What the plain variant would hold where the other variant holds [s],
    and the events of the plain variant that correspond to its events:
    the console lines lose the state they quote, and an outcome [Throws]
    is read as a rejected [fetch]. *)
Definition plain_log (l : LogLine) : Plain.LogLine :=
  match l with
  | LogPingSent _ => Plain.LogPingSent
  | LogPingFailed => Plain.LogPingFailed
  | LogLoaded => Plain.LogLoaded
  end.

Definition plain_view (s : State) : Plain.State :=
  Plain.mkState (now s) (hidden s) (pingInterval s) (timers s) (next_timer s)
                (fetches s) (requests s) (map plain_log (console s)).

Definition plain_event (e : Event) : Plain.Event :=
  match e with
  | EvWait dt => Plain.EvWait dt
  | EvTimer id => Plain.EvTimer id
  | EvResponse id Throws => Plain.EvResponse id Plain.Rejected
  | EvResponse id (Body _) => Plain.EvResponse id Plain.Resolved
  | EvVisibility h => Plain.EvVisibility h
  end.

(** * Proofs *)

(** Decides a clock comparison met while a run is evaluated. *)
Ltac settle_guard :=
  match goal with
  | |- context [N.leb ?a ?b] =>
      replace (N.leb a b) with true by (symmetry; apply N.leb_le; lia)
  | |- context [N.eqb ?a ?b] =>
      replace (N.eqb a b) with true by (symmetry; apply N.eqb_eq; lia)
  | |- context [N.ltb ?a ?b] =>
      replace (N.ltb a b) with true by (symmetry; apply N.ltb_lt; lia)
  end.

(** ** Lists with one entry taken out or rewritten *)

Section ListFacts.
Context {A : Type} (p : A -> bool).

Lemma lookup_by_In (l : list A) (x : A) :
  lookup_by p l = Some x -> In x l /\ p x = true.
Proof. apply find_some. Qed.

Lemma lookup_by_none (l : list A) :
  lookup_by p l = None -> forall x, In x l -> p x = false.
Proof. intros H x Hx. exact (find_none p l H x Hx). Qed.

Lemma lookup_by_some_of (l : list A) (x : A) :
  In x l -> p x = true -> exists y, lookup_by p l = Some y.
Proof.
  intros Hin Hp. destruct (lookup_by p l) as [y|] eqn:E; eauto.
  rewrite (lookup_by_none l E x Hin) in Hp. discriminate.
Qed.

Lemma remove_by_perm (l : list A) (x : A) :
  lookup_by p l = Some x -> Permutation l (x :: remove_by p l).
Proof.
  induction l as [|a l IH]; simpl; [discriminate|].
  destruct (p a) eqn:E; intros H.
  - injection H as <-. reflexivity.
  - rewrite perm_swap. constructor. auto.
Qed.

Lemma remove_by_In (l : list A) (x : A) : In x (remove_by p l) -> In x l.
Proof.
  induction l as [|a l IH]; simpl; auto.
  destruct (p a); simpl; intuition.
Qed.

Lemma remove_by_keeps (l : list A) (x : A) :
  In x l -> p x = false -> In x (remove_by p l).
Proof.
  induction l as [|a l IH]; simpl; auto.
  intros [->|Hin] Hp.
  - rewrite Hp. now left.
  - destruct (p a); simpl; auto.
Qed.

Lemma remove_by_none (l : list A) :
  lookup_by p l = None -> remove_by p l = l.
Proof.
  induction l as [|a l IH]; simpl; auto.
  destruct (p a); [discriminate|]. intros H. now rewrite IH.
Qed.

Lemma lookup_by_app_new (l : list A) (x : A) :
  (forall y, In y l -> p y = false) -> p x = true ->
  lookup_by p (l ++ [x]) = Some x.
Proof.
  induction l as [|a l IH]; simpl; intros Hl Hx.
  - now rewrite Hx.
  - rewrite (Hl a) by auto. apply IH; auto.
Qed.

Lemma remove_by_app_new (l : list A) (x : A) :
  (forall y, In y l -> p y = false) -> p x = true ->
  remove_by p (l ++ [x]) = l.
Proof.
  induction l as [|a l IH]; simpl; intros Hl Hx.
  - now rewrite Hx.
  - rewrite (Hl a) by auto. f_equal. apply IH; auto.
Qed.

Lemma update_by_In (f : A -> A) (l : list A) (x : A) :
  In x (update_by p f l) ->
  (In x l /\ p x = false) \/
  (exists y, lookup_by p l = Some y /\ x = f y) \/
  (In x l /\ exists y, lookup_by p l = Some y).
Proof.
  induction l as [|a l IH]; simpl; [tauto|].
  destruct (p a) eqn:E; simpl.
  - intros [<-|Hin]; [right; left; eauto | right; right; eauto].
  - intros [<-|Hin]; [left; auto|].
    destruct (IH Hin) as [[H1 H2]|[(y & H1 & H2)|(H1 & y & H2)]];
      [left | right; left | right; right]; eauto.
Qed.

Lemma update_by_has (f : A -> A) (l : list A) (y : A) :
  lookup_by p l = Some y -> In (f y) (update_by p f l).
Proof.
  induction l as [|a l IH]; simpl; [discriminate|].
  destruct (p a); intros H.
  - injection H as <-. now left.
  - right. auto.
Qed.

Lemma update_by_keeps (f : A -> A) (l : list A) (x : A) :
  In x l -> p x = false -> In x (update_by p f l).
Proof.
  induction l as [|a l IH]; simpl; auto.
  intros [->|Hin] Hp.
  - rewrite Hp. now left.
  - destruct (p a); simpl; auto.
Qed.

Lemma map_update_by {B : Type} (k : A -> B) (f : A -> A) (l : list A) :
  (forall x, k (f x) = k x) -> map k (update_by p f l) = map k l.
Proof.
  intros Hk. induction l as [|a l IH]; simpl; auto.
  destruct (p a); simpl; now rewrite ?Hk, ?IH.
Qed.

Lemma flat_map_update_by {B : Type} (k : A -> list B) (f : A -> A) (l : list A) :
  (forall x, k (f x) = k x) -> flat_map k (update_by p f l) = flat_map k l.
Proof.
  intros Hk. induction l as [|a l IH]; simpl; auto.
  destruct (p a); simpl; now rewrite ?Hk, ?IH.
Qed.

Lemma flat_map_remove_by {B : Type} (k : A -> list B) (l : list A) (x : A) :
  lookup_by p l = Some x ->
  Permutation (flat_map k l) (k x ++ flat_map k (remove_by p l)).
Proof.
  intros H. rewrite (Permutation_flat_map k (remove_by_perm l x H)). reflexivity.
Qed.

Lemma flat_map_remove_by_nil {B : Type} (k : A -> list B) (l : list A) (x : A) :
  lookup_by p l = Some x -> k x = [] ->
  flat_map k (remove_by p l) = flat_map k l.
Proof.
  induction l as [|a l IH]; simpl; [discriminate|].
  destruct (p a); intros H Hk.
  - injection H as <-. now rewrite Hk.
  - simpl. now rewrite IH.
Qed.

Lemma filter_remove_by_out (q : A -> bool) (l : list A) (x : A) :
  lookup_by p l = Some x -> q x = false ->
  filter q (remove_by p l) = filter q l.
Proof.
  induction l as [|a l IH]; simpl; [discriminate|].
  destruct (p a); intros H Hq.
  - injection H as <-. now rewrite Hq.
  - simpl. now rewrite IH.
Qed.
End ListFacts.

Lemma NoDup_map_unique {A B : Type} (k : A -> B) (l : list A) (x y : A) :
  NoDup (map k l) -> In x l -> In y l -> k x = k y -> x = y.
Proof.
  induction l as [|a l IH]; simpl; [tauto|].
  intros Hnd Hx Hy Hk. inversion Hnd as [|? ? Hnot Hnd']; subst.
  destruct Hx as [->|Hx], Hy as [->|Hy]; auto.
  - exfalso. apply Hnot. rewrite Hk. now apply in_map.
  - exfalso. apply Hnot. rewrite <- Hk. now apply in_map.
Qed.

Lemma update_nth_length {A : Type} (f : A -> A) (l : list A) (n : nat) :
  List.length (update_nth n f l) = List.length l.
Proof.
  revert n. induction l as [|a l IH]; intros [|n]; simpl; auto.
Qed.

Lemma update_nth_lookup {A : Type} (f : A -> A) (l : list A) (n : nat) :
  nth_error (update_nth n f l) n = option_map f (nth_error l n).
Proof.
  revert n. induction l as [|a l IH]; intros [|n]; simpl; auto.
Qed.

(** ** The structural invariant is kept by every piece of the script *)

Lemma NoDup_snoc {A : Type} (l : list A) (x : A) :
  NoDup l -> ~ In x l -> NoDup (l ++ [x]).
Proof.
  intros Hl Hx. apply (Permutation_NoDup (Permutation_cons_append l x)).
  now constructor.
Qed.

Lemma active_sessions_fetch (k : Cont) (s : State) :
  Permutation (active_sessions (fetch k s))
              (match k with KPoll sid => [sid] | KPing => [] end ++ active_sessions s).
Proof.
  unfold active_sessions; simpl. rewrite flat_map_app.
  destruct k as [|sid]; simpl.
  - now rewrite app_nil_r.
  - rewrite <- app_assoc. simpl. symmetry. apply Permutation_middle.
Qed.

Lemma active_sessions_new_timer (t : Timer) (n : nat) (s : State) :
  Permutation (active_sessions (set_next_timer n (set_timers (timers s ++ [t]) s)))
              (timer_sid t ++ active_sessions s).
Proof.
  unfold active_sessions; simpl. rewrite flat_map_app; simpl.
  rewrite app_nil_r, app_assoc.
  apply Permutation_app_comm.
Qed.

Lemma Inv_console_log (l : LogLine) (s : State) : Inv s -> Inv (console_log l s).
Proof. intros []; constructor; assumption. Qed.

Lemma Inv_set_hidden (h : bool) (s : State) : Inv s -> Inv (set_hidden h s).
Proof. intros []; constructor; assumption. Qed.

Lemma Inv_set_now (v : N) (s : State) : Inv s -> Inv (set_now v s).
Proof. intros []; constructor; assumption. Qed.

Lemma Inv_fetch (k : Cont) (s : State) :
  Inv s ->
  (forall sid, k = KPoll sid ->
     sid <= List.length (requests s) /\ ~ In sid (active_sessions s)) ->
  Inv (fetch k s).
Proof.
  intros [] Hk; constructor; try assumption.
  - simpl. intros f Hf. rewrite length_app; simpl.
    apply in_app_or in Hf as [Hf|[<-|[]]]; simpl; [|lia].
    specialize (inv_fid_fresh0 f Hf). lia.
  - simpl. rewrite map_app. simpl. apply NoDup_snoc; auto.
    intros Hin. apply in_map_iff in Hin as (f & Hid & Hf).
    specialize (inv_fid_fresh0 f Hf). lia.
  - intros sid Hin.
    apply (Permutation_in _ (active_sessions_fetch k s)) in Hin.
    simpl requests. rewrite length_app; simpl.
    apply in_app_or in Hin as [Hin|Hin].
    + destruct k; simpl in Hin; [tauto|]. destruct Hin as [<-|[]].
      destruct (Hk _ eq_refl). lia.
    + specialize (inv_sid_fresh0 sid Hin). lia.
  - apply (Permutation_NoDup (Permutation_sym (active_sessions_fetch k s))).
    destruct k; simpl; auto. constructor; auto.
    now destruct (Hk _ eq_refl).
  - simpl. intros r sid Hr Hfrom. rewrite length_app; simpl.
    apply in_app_or in Hr as [Hr|[<-|[]]].
    + specialize (inv_req_sid0 r sid Hr Hfrom). lia.
    + simpl in Hfrom. destruct (Hk sid Hfrom). lia.
Qed.

Lemma Inv_new_timer (t : Timer) (s : State) :
  Inv s ->
  t_id t = next_timer s ->
  (forall sid, t_cb t = CbPoll sid ->
     sid < List.length (requests s) /\ ~ In sid (active_sessions s)) ->
  match t_cb t with
  | CbPing => pingInterval s = Some (t_id t) /\ t_period t = Some PING_INTERVAL
  | _ => t_period t = None
  end ->
  Inv (set_next_timer (S (next_timer s)) (set_timers (timers s ++ [t]) s)).
Proof.
  intros [] Hid Hsid Hper; constructor; try assumption.
  - simpl. intros x Hx.
    apply in_app_or in Hx as [Hx|[<-|[]]]; [|lia].
    specialize (inv_tid_fresh0 x Hx). lia.
  - simpl. rewrite map_app. simpl. apply NoDup_snoc; auto.
    intros Hin. apply in_map_iff in Hin as (x & Hx & Hin).
    specialize (inv_tid_fresh0 x Hin). lia.
  - intros sid Hin.
    apply (Permutation_in _ (active_sessions_new_timer t _ s)) in Hin.
    simpl requests.
    apply in_app_or in Hin as [Hin|Hin]; [|auto].
    unfold timer_sid in Hin. destruct (t_cb t) eqn:E; simpl in Hin; try tauto.
    destruct Hin as [<-|[]]. now destruct (Hsid _ eq_refl).
  - apply (Permutation_NoDup (Permutation_sym (active_sessions_new_timer t _ s))).
    unfold timer_sid. destruct (t_cb t) eqn:E; simpl; auto.
    constructor; auto. now destruct (Hsid _ eq_refl).
  - simpl. intros x Hx.
    apply in_app_or in Hx as [Hx|[<-|[]]]; [now apply inv_ping_timer0|exact Hper].
  - simpl. intros id Hp. destruct (inv_ping_live0 id Hp) as (x & Hx & Hx').
    exists x. split; auto. apply in_or_app. now left.
Qed.

Lemma Inv_setTimeout (cb : Callback) (d : N) (s : State) :
  Inv s -> cb <> CbPing ->
  (forall sid, cb = CbPoll sid ->
     sid < List.length (requests s) /\ ~ In sid (active_sessions s)) ->
  Inv (snd (setTimeout cb d s)).
Proof.
  intros HI Hcb Hsid.
  apply (Inv_new_timer (mkTimer (next_timer s) (now s + d) cb None) s); auto.
  simpl. destruct cb; auto. congruence.
Qed.

Lemma Inv_setInterval_ping (s : State) :
  Inv s -> pingInterval s = None ->
  Inv (set_pingInterval (Some (next_timer s))
         (snd (setInterval CbPing PING_INTERVAL s))).
Proof.
  intros HI Hnone.
  assert (Hold : forall t, In t (timers s) -> t_cb t <> CbPing).
  { intros t Ht E. pose proof (inv_ping_timer s HI t Ht) as H.
    rewrite E in H. destruct H. congruence. }
  destruct HI. constructor; try assumption.
  - simpl. intros x Hx.
    apply in_app_or in Hx as [Hx|[<-|[]]]; simpl; [|lia].
    specialize (inv_tid_fresh0 x Hx). lia.
  - simpl. rewrite map_app. simpl. apply NoDup_snoc; auto.
    intros Hin. apply in_map_iff in Hin as (x & Hx & Hin).
    specialize (inv_tid_fresh0 x Hin). lia.
  - intros sid Hin. simpl requests. apply inv_sid_fresh0.
    revert Hin. unfold active_sessions; simpl.
    rewrite flat_map_app; simpl. now rewrite !app_nil_r.
  - unfold active_sessions; simpl.
    rewrite flat_map_app; simpl. now rewrite !app_nil_r.
  - simpl. intros x Hx.
    apply in_app_or in Hx as [Hx|[<-|[]]]; simpl; auto.
    specialize (inv_ping_timer0 x Hx). specialize (Hold x Hx).
    destruct (t_cb x); auto. congruence.
  - simpl. intros id Hid. injection Hid as <-.
    eexists. split; [apply in_or_app; right; left; reflexivity|]. auto.
Qed.

Lemma Inv_el_set_opacity (e : nat) (v : string) (s : State) :
  Inv s -> Inv (el_set_opacity e v s).
Proof.
  intros []; constructor; try assumption.
  simpl. intros x Hx. rewrite update_nth_length. auto.
Qed.

Lemma filter_out_single (e : nat) :
  filter (fun x => negb (Nat.eqb x e)) [e] = [].
Proof. simpl. now rewrite Nat.eqb_refl. Qed.

Lemma Inv_showNotification (m ty : string) (s : State) :
  Inv s -> Inv (showNotification m ty s).
Proof.
  intros HI. pose proof (inv_body s HI) as Hb.
  destruct HI. unfold showNotification.
  destruct (notificationEl s) as [e|] eqn:E; constructor; try assumption; simpl.
  - rewrite Hb, filter_out_single. reflexivity.
  - intros x Hx. injection Hx as <-. rewrite length_app; simpl. lia.
  - now rewrite Hb.
  - intros x Hx. injection Hx as <-. rewrite length_app; simpl. lia.
Qed.

Lemma Inv_hideNotification (s : State) : Inv s -> Inv (hideNotification s).
Proof.
  intros HI. unfold hideNotification.
  destruct (notificationEl s); auto.
  apply Inv_setTimeout; [now apply Inv_el_set_opacity|discriminate|discriminate].
Qed.

Lemma Inv_fade_callback (s : State) : Inv s -> Inv (fade_callback s).
Proof.
  intros HI. pose proof (inv_body s HI) as Hb.
  unfold fade_callback. destruct (notificationEl s) as [e|] eqn:E; auto.
  destruct HI. constructor; try assumption; simpl.
  - rewrite Hb. apply filter_out_single.
  - discriminate.
Qed.

Lemma active_sessions_take_fetch (id : nat) (f : Fetch) (s : State) :
  lookup_by (has_fid id) (fetches s) = Some f ->
  Permutation (active_sessions s)
    (fetch_sid f ++ active_sessions (set_fetches (remove_by (has_fid id) (fetches s)) s)).
Proof.
  intros H. unfold active_sessions; simpl.
  rewrite app_assoc. apply Permutation_app_tail.
  now apply flat_map_remove_by.
Qed.

Lemma active_sessions_take_timer (id : nat) (t : Timer) (s : State) :
  lookup_by (has_tid id) (timers s) = Some t ->
  Permutation (active_sessions s)
    (timer_sid t ++ active_sessions (set_timers (remove_by (has_tid id) (timers s)) s)).
Proof.
  intros H. unfold active_sessions; simpl.
  rewrite (flat_map_remove_by (has_tid id) timer_sid (timers s) t H).
  rewrite !app_assoc. apply Permutation_app_tail, Permutation_app_comm.
Qed.

Lemma Inv_take_fetch (id : nat) (f : Fetch) (s : State) :
  Inv s -> lookup_by (has_fid id) (fetches s) = Some f ->
  let s1 := set_fetches (remove_by (has_fid id) (fetches s)) s in
  Inv s1 /\
  (forall sid, f_cont f = KPoll sid ->
     sid < List.length (requests s1) /\ ~ In sid (active_sessions s1)).
Proof.
  intros HI Hf s1.
  pose proof (active_sessions_take_fetch id f s Hf) as Hact. fold s1 in Hact.
  pose proof (remove_by_perm _ _ _ Hf) as Hperm.
  pose proof (Permutation_NoDup Hact (inv_sid_nodup s HI)) as Hnd.
  split.
  - destruct HI. constructor; try assumption.
    + intros x Hx. apply inv_fid_fresh0. simpl in Hx. eapply remove_by_In; eauto.
    + simpl. apply (Permutation_map f_id) in Hperm.
      apply (Permutation_NoDup Hperm) in inv_fid_nodup0.
      now inversion inv_fid_nodup0.
    + intros sid Hin. apply inv_sid_fresh0.
      apply (Permutation_in _ (Permutation_sym Hact)), in_or_app. now right.
    + eapply NoDup_app_remove_l; eauto.
  - intros sid Hk. unfold fetch_sid in Hact, Hnd. rewrite Hk in Hact, Hnd.
    split.
    + apply (inv_sid_fresh s HI).
      apply (Permutation_in _ (Permutation_sym Hact)). now left.
    + simpl in Hnd. now inversion Hnd.
Qed.

Lemma Inv_take_timer (id : nat) (t : Timer) (s : State) :
  Inv s -> lookup_by (has_tid id) (timers s) = Some t -> t_period t = None ->
  let s1 := set_timers (remove_by (has_tid id) (timers s)) s in
  Inv s1 /\
  (forall sid, t_cb t = CbPoll sid ->
     sid < List.length (requests s1) /\ ~ In sid (active_sessions s1)).
Proof.
  intros HI Ht Hper s1.
  pose proof (active_sessions_take_timer id t s Ht) as Hact. fold s1 in Hact.
  pose proof (remove_by_perm _ _ _ Ht) as Hperm.
  pose proof (Permutation_NoDup Hact (inv_sid_nodup s HI)) as Hnd.
  split.
  - destruct HI. constructor; try assumption.
    + intros x Hx. apply inv_tid_fresh0. simpl in Hx. eapply remove_by_In; eauto.
    + simpl. apply (Permutation_map t_id) in Hperm.
      apply (Permutation_NoDup Hperm) in inv_tid_nodup0.
      now inversion inv_tid_nodup0.
    + intros sid Hin. apply inv_sid_fresh0.
      apply (Permutation_in _ (Permutation_sym Hact)), in_or_app. now right.
    + eapply NoDup_app_remove_l; eauto.
    + intros x Hx. apply inv_ping_timer0. simpl in Hx. eapply remove_by_In; eauto.
    + intros i Hi. destruct (inv_ping_live0 i Hi) as (x & Hx & Hid & Hcb).
      exists x. split; auto. simpl.
      apply (Permutation_in _ Hperm) in Hx as [<-|Hx]; auto.
      pose proof (inv_ping_timer0 t (proj1 (lookup_by_In _ _ _ Ht))) as H.
      rewrite Hcb in H. destruct H. congruence.
  - intros sid Hk. unfold timer_sid in Hact, Hnd. rewrite Hk in Hact, Hnd.
    split.
    + apply (inv_sid_fresh s HI).
      apply (Permutation_in _ (Permutation_sym Hact)). now left.
    + simpl in Hnd. now inversion Hnd.
Qed.

Lemma lookup_tid_unique (id : nat) (t x : Timer) (s : State) :
  Inv s -> lookup_by (has_tid id) (timers s) = Some t ->
  In x (timers s) -> t_id x = id -> x = t.
Proof.
  intros HI Ht Hx Hid.
  destruct (lookup_by_In _ _ _ Ht) as [Hin Hp].
  apply (NoDup_map_unique t_id (timers s)); auto using inv_tid_nodup.
  unfold has_tid in Hp. apply Nat.eqb_eq in Hp. congruence.
Qed.

Lemma Inv_rearm (id : nat) (t : Timer) (p : N) (s : State) :
  Inv s -> lookup_by (has_tid id) (timers s) = Some t ->
  Inv (set_timers (update_by (has_tid id) (rearm p) (timers s)) s).
Proof.
  intros HI Ht. pose proof (lookup_tid_unique id t) as Huniq.
  destruct (lookup_by_In _ _ _ Ht) as [Hin Hp].
  assert (Hcases : forall x, In x (update_by (has_tid id) (rearm p) (timers s)) ->
                             In x (timers s) \/ x = rearm p t).
  { intros x Hx. apply update_by_In in Hx.
    destruct Hx as [[H _]|[(y & Hy & ->)|[H _]]]; auto.
    right. congruence. }
  destruct HI. constructor; try assumption; simpl.
  - intros x Hx. destruct (Hcases x Hx) as [H| ->]; auto.
    simpl. auto.
  - rewrite map_update_by; auto.
  - unfold active_sessions; simpl. rewrite flat_map_update_by; auto.
  - unfold active_sessions; simpl. rewrite flat_map_update_by; auto.
  - intros x Hx. destruct (Hcases x Hx) as [H| ->]; [now apply inv_ping_timer0|].
    simpl. now apply inv_ping_timer0.
  - intros i Hi. destruct (inv_ping_live0 i Hi) as (x & Hx & Hid & Hcb).
    destruct (has_tid id x) eqn:E.
    + exists (rearm p t). split; [now apply update_by_has|].
      unfold has_tid in E. apply Nat.eqb_eq in E.
      assert (x = t) by (eapply Huniq; eauto; constructor; assumption).
      subst x. simpl. auto.
    + exists x. split; auto. now apply update_by_keeps.
Qed.

Lemma Inv_poll (sid : nat) (s : State) :
  Inv s -> sid < List.length (requests s) -> ~ In sid (active_sessions s) ->
  Inv (poll sid s).
Proof.
  intros HI Hlt Hnot. apply Inv_fetch; auto.
  intros x Hx. injection Hx as <-. split; [lia|auto].
Qed.

Lemma Inv_pollUntilRunning (s : State) : Inv s -> Inv (pollUntilRunning s).
Proof.
  intros HI. apply Inv_fetch; auto.
  intros x Hx. injection Hx as <-. split; [lia|].
  intros Hin. apply (inv_sid_fresh s HI) in Hin. lia.
Qed.

Lemma Inv_checkState_resume (o : Outcome) (s : State) :
  Inv s -> Inv (fst (checkState_resume o s)).
Proof.
  intros HI. destruct o as [|st]; unfold checkState_resume; [exact HI|].
  destruct (state_is st "running"); cbn [fst].
  - apply Inv_setTimeout; [now apply Inv_showNotification|discriminate..].
  - destruct (state_is st "starting"); cbn [fst]; auto using Inv_hideNotification.
Qed.

Lemma checkState_resume_done (o : Outcome) (s : State) :
  snd (checkState_resume o s) = ends_session o.
Proof.
  destruct o as [|st]; simpl; auto.
  destruct (state_is st "running"); auto.
  destruct (state_is st "starting"); auto.
Qed.

Lemma checkState_resume_frame (o : Outcome) (s : State) :
  let s1 := fst (checkState_resume o s) in
  fetches s1 = fetches s /\ requests s1 = requests s /\
  pingInterval s1 = pingInterval s /\ hidden s1 = hidden s /\ now s1 = now s /\
  flat_map timer_sid (timers s1) = flat_map timer_sid (timers s) /\
  ping_timers s1 = ping_timers s.
Proof.
  unfold ping_timers.
  destruct o as [|st]; simpl; [tauto|].
  destruct (state_is st "running"); simpl.
  - unfold showNotification. destruct (notificationEl s); simpl;
      rewrite flat_map_app, filter_app; simpl; rewrite !app_nil_r; tauto.
  - destruct (state_is st "starting"); simpl; [tauto|].
    unfold hideNotification. destruct (notificationEl s); simpl; [|tauto].
    rewrite flat_map_app, filter_app; simpl; rewrite !app_nil_r; tauto.
Qed.

Lemma Inv_poll_resume (sid : nat) (o : Outcome) (s : State) :
  Inv s -> sid < List.length (requests s) -> ~ In sid (active_sessions s) ->
  Inv (poll_resume sid o s).
Proof.
  intros HI Hlt Hnot. unfold poll_resume.
  pose proof (Inv_checkState_resume o s HI) as H1.
  pose proof (checkState_resume_frame o s) as (Hf & Hr & _ & _ & _ & Ht & _).
  destruct (checkState_resume o s) as [s1 done]; simpl in *.
  destruct done; auto.
  apply Inv_setTimeout; auto; [discriminate|].
  intros x Hx. injection Hx as <-. rewrite Hr. split; auto.
  unfold active_sessions. now rewrite Hf, Ht.
Qed.

Lemma Inv_ping (s : State) : Inv s -> Inv (ping s).
Proof.
  intros HI. unfold ping. destruct (hidden s); auto.
  apply Inv_fetch; auto. discriminate.
Qed.

Lemma Inv_ping_resume (o : Outcome) (s : State) : Inv s -> Inv (ping_resume o s).
Proof.
  intros HI. destruct o as [|st]; simpl; apply Inv_console_log; auto.
  destruct (state_is st "starting").
  - now apply Inv_pollUntilRunning, Inv_showNotification.
  - destruct (state_is st "running"); auto using Inv_hideNotification.
Qed.

Lemma Inv_startPinging (s : State) : Inv s -> Inv (startPinging s).
Proof.
  intros HI. unfold startPinging.
  pose proof (Inv_ping s HI) as H1.
  destruct (pingInterval (ping s)) eqn:E; auto.
  now apply Inv_setInterval_ping.
Qed.

Lemma stopPinging_takes_ping (id : nat) (s : State) :
  Inv s -> pingInterval s = Some id ->
  exists t, lookup_by (has_tid id) (timers s) = Some t /\ t_cb t = CbPing.
Proof.
  intros HI Hp.
  destruct (inv_ping_live s HI id Hp) as (x & Hx & Hid & Hcb).
  destruct (lookup_by_some_of (has_tid id) (timers s) x Hx) as [t Ht].
  { unfold has_tid. now apply Nat.eqb_eq. }
  exists t. split; auto.
  now rewrite <- (lookup_tid_unique id t x s HI Ht Hx Hid).
Qed.

Lemma Inv_stopPinging (s : State) : Inv s -> Inv (stopPinging s).
Proof.
  intros HI. unfold stopPinging. destruct (pingInterval s) as [id|] eqn:Hp; auto.
  destruct (stopPinging_takes_ping id s HI Hp) as (t & Ht & Hcb).
  pose proof (remove_by_perm _ _ _ Ht) as Hperm.
  destruct (lookup_by_In _ _ _ Ht) as [Hin Hhas].
  unfold has_tid in Hhas. apply Nat.eqb_eq in Hhas.
  assert (Hnd : NoDup (t_id t :: map t_id (remove_by (has_tid id) (timers s)))).
  { apply (Permutation_NoDup (Permutation_map t_id Hperm)), (inv_tid_nodup s HI). }
  assert (Hact : active_sessions (clearInterval id s) = active_sessions s).
  { unfold active_sessions; simpl. f_equal.
    apply (flat_map_remove_by_nil _ _ _ t); auto.
    unfold timer_sid. now rewrite Hcb. }
  destruct HI. constructor; try assumption; simpl.
  - intros x Hx. apply inv_tid_fresh0. eapply remove_by_In; eauto.
  - now inversion Hnd.
  - intros sid Hsid. apply inv_sid_fresh0. now rewrite <- Hact.
  - change (NoDup (active_sessions (clearInterval id s))). now rewrite Hact.
  - intros x Hx. pose proof (remove_by_In _ _ _ Hx) as Hx'.
    specialize (inv_ping_timer0 x Hx').
    destruct (t_cb x); auto.
    exfalso. destruct inv_ping_timer0 as [H _].
    rewrite Hp in H. injection H as H.
    apply NoDup_cons_iff in Hnd as [Hnot _]. apply Hnot.
    replace (t_id t) with (t_id x) by congruence. apply in_map, Hx.
  - discriminate.
Qed.

Lemma Inv_fire (id : nat) (s s' : State) : Inv s -> fire id s = Some s' -> Inv s'.
Proof.
  intros HI. unfold fire.
  destruct (lookup_by (has_tid id) (timers s)) as [t|] eqn:Ht; [|discriminate].
  intros H. injection H as <-.
  pose proof (inv_ping_timer s HI t (proj1 (lookup_by_In _ _ _ Ht))) as Hshape.
  destruct (t_period t) as [p|] eqn:Hper.
  - pose proof (Inv_rearm id t p s HI Ht) as H1.
    destruct (t_cb t); try discriminate. now apply Inv_ping.
  - destruct (Inv_take_timer id t s HI Ht Hper) as [H1 H2].
    destruct (t_cb t) as [| | |sid]; simpl.
    + now apply Inv_ping.
    + now apply Inv_fade_callback.
    + now apply Inv_hideNotification.
    + destruct (H2 sid eq_refl). now apply Inv_poll.
Qed.

Lemma Inv_deliver (id : nat) (o : Outcome) (s s' : State) :
  Inv s -> deliver id o s = Some s' -> Inv s'.
Proof.
  intros HI. unfold deliver.
  destruct (lookup_by (has_fid id) (fetches s)) as [f|] eqn:Hf; [|discriminate].
  intros H. injection H as <-.
  destruct (Inv_take_fetch id f s HI Hf) as [H1 H2].
  destruct (f_cont f) as [|sid].
  - now apply Inv_ping_resume.
  - destruct (H2 sid eq_refl). now apply Inv_poll_resume.
Qed.

Lemma Inv_visibility (h : bool) (s : State) : Inv s -> Inv (visibility h s).
Proof.
  intros HI. unfold visibility, on_visibilitychange.
  apply (Inv_set_hidden h) in HI.
  destruct (hidden (set_hidden h s)); auto using Inv_stopPinging, Inv_startPinging.
Qed.

Lemma Inv_step (e : Event) (s s' : State) : Inv s -> step s e = Some s' -> Inv s'.
Proof.
  intros HI. destruct e as [dt|id|id o|h]; simpl.
  - destruct (may_elapse dt s); [|discriminate].
    intros H. injection H as <-. now apply Inv_set_now.
  - destruct (lookup_by (has_tid id) (timers s)); [|discriminate].
    destruct (N.eqb _ _); [|discriminate]. now apply Inv_fire.
  - destruct (lookup_by (has_fid id) (fetches s)); [|discriminate].
    destruct (_ || _); [|discriminate]. now apply Inv_deliver.
  - destruct (Bool.eqb h (hidden s)); [discriminate|].
    intros H. injection H as <-. now apply Inv_visibility.
Qed.

Lemma Inv_run (evs : list Event) (s s' : State) :
  Inv s -> run s evs = Some s' -> Inv s'.
Proof.
  revert s. induction evs as [|e evs IH]; simpl; intros s HI H.
  - now injection H as <-.
  - destruct (step s e) as [s1|] eqn:E; [|discriminate].
    eauto using Inv_step.
Qed.

Lemma Inv_module_loaded (h : bool) : Inv (module_loaded h).
Proof.
  constructor; simpl; try tauto; try constructor; discriminate.
Qed.

Lemma Inv_init (h : bool) : Inv (init h).
Proof. apply Inv_console_log, Inv_startPinging, Inv_module_loaded. Qed.

Lemma reachable_Inv (s : State) : reachable s -> Inv s.
Proof. intros (h & evs & H). eapply Inv_run; eauto using Inv_init. Qed.

Lemma Inv_acts (l : list Action) (s s' : State) :
  Inv s -> acts s l = Some s' -> Inv s'.
Proof.
  revert s. induction l as [|a l IH]; simpl; intros s HI H.
  - now injection H as <-.
  - destruct (act s a) as [s1|] eqn:E; [|discriminate].
    apply (IH s1); auto.
    destruct a as [m ty| |e]; simpl in E.
    + injection E as <-. now apply Inv_showNotification.
    + injection E as <-. now apply Inv_hideNotification.
    + eauto using Inv_step.
Qed.

Lemma reachable_step (e : Event) (s s' : State) :
  reachable s -> step s e = Some s' -> reachable s'.
Proof.
  intros (h & evs & H) Hs. exists h, (evs ++ [e]).
  revert H. generalize (init h). induction evs as [|a evs IH]; simpl; intros s0 H.
  - injection H as ->. now rewrite Hs.
  - destruct (step s0 a); [|discriminate]. auto.
Qed.

Lemma api_reachable_Inv (s : State) : api_reachable s -> Inv s.
Proof. intros (h & l & H). eapply Inv_acts; eauto using Inv_init. Qed.

Lemma reachable_api_reachable (s : State) : reachable s -> api_reachable s.
Proof.
  intros (h & evs & H). exists h, (map Turn evs).
  revert H. generalize (init h). induction evs as [|e evs IH]; simpl; auto.
  intros s0. destruct (step s0 e); auto.
Qed.

(** ** The overlay *)

Lemma visible_showNotification (m ty : string) (s : State) :
  Inv s -> visible (showNotification m ty s) = [mkElement m (css_of ty) ""].
Proof.
  intros HI. pose proof (inv_body s HI) as Hb.
  unfold visible, showNotification.
  destruct (notificationEl s) as [e|]; simpl; rewrite Hb; simpl;
    rewrite ?Nat.eqb_refl; simpl;
    rewrite nth_error_app2, Nat.sub_diag by lia; reflexivity.
Qed.

Lemma visible_at_most_one (s : State) :
  Inv s -> List.length (body s) <= 1 /\ List.length (visible s) <= 1.
Proof.
  intros HI. unfold visible. rewrite (inv_body s HI).
  destruct (notificationEl s) as [e|]; simpl; auto.
  destruct (nth_error (heap s) e); simpl; auto.
Qed.

(** C5. Whatever calls to [showNotification] and [hideNotification] are
    made, with whatever arguments and however interleaved with timers,
    responses and visibility changes, at most one element is attached to
    the body; a call to [showNotification] leaves exactly the element it
    created, so after two calls in a row only the second notice shows. *)
Theorem overlay_shows_at_most_one :
  forall (h : bool) (l : list Action) (s : State),
    acts (init h) l = Some s ->
    List.length (body s) <= 1 /\
    List.length (visible s) <= 1 /\
    (forall m ty,
        visible (showNotification m ty s) = [mkElement m (css_of ty) ""]) /\
    (forall m1 ty1 m2 ty2,
        visible (showNotification m2 ty2 (showNotification m1 ty1 s))
        = [mkElement m2 (css_of ty2) ""]).
Proof.
  intros h l s H.
  assert (HI : Inv s) by (apply api_reachable_Inv; now exists h, l).
  destruct (visible_at_most_one s HI) as [Hb Hv].
  repeat split; auto.
  - intros. now apply visible_showNotification.
  - intros. now apply visible_showNotification, Inv_showNotification.
Qed.

Lemma overlay_shows_at_most_one_witness :
  let s := showNotification "a" "info" (init false) in
  List.length (body s) <= 1 /\
  visible (showNotification "c" "info" (showNotification "b" "success" s))
  = [mkElement "c" CSS_INFO ""].
Proof.
  intros s.
  destruct (overlay_shows_at_most_one false [CallShow "a" "info"] s eq_refl)
    as (Hb & _ & _ & H2).
  split; [exact Hb|]. exact (H2 "b" "success" "c" "info").
Defined.

Lemma step_wait_inv (s s' : State) (dt : N) :
  step s (EvWait dt) = Some s' -> may_elapse dt s = true /\ s' = elapse dt s.
Proof.
  unfold step. destruct (may_elapse dt s); [|discriminate].
  intros H. injection H as <-. auto.
Qed.

(** C3. The script does not do what the claim says.  A notice is shown
    and hidden; 100 ms into the fade a second notice is shown, and it is
    on display, alone, when the clock reaches the 300th ms.  There the
    timer set by [hideNotification] fires: its closure reads
    [notificationEl], which by now holds the second notice, and removes
    it.  The pending removal was not cancelled by the replacement, and
    the newly shown notice does not remain visible. *)
Theorem fade_timer_removes_new_notice :
  exists s1 s2,
    acts (init false)
         [ CallShow "first" "info"; CallHide;
           Turn (EvWait 100); CallShow "second" "info";
           Turn (EvWait 200) ] = Some s1 /\
    now s1 = 300%N /\
    visible s1 = [mkElement "second" CSS_INFO ""] /\
    lookup_by (has_tid 2) (timers s1) = Some (mkTimer 2 300 CbFade None) /\
    step s1 (EvTimer 2) = Some s2 /\
    acts (init false) show_during_fade = Some s2 /\
    visible s2 = [] /\ body s2 = [] /\ notificationEl s2 = None.
Proof.
  eexists. eexists.
  split; [vm_compute; reflexivity|].
  split; [reflexivity|].
  split; [reflexivity|].
  split; [reflexivity|].
  split; [vm_compute; reflexivity|].
  split; [vm_compute; reflexivity|].
  split; [reflexivity|]. split; reflexivity.
Qed.

(** The same inside the script, with no call from outside: the "ready"
    notice, which [pollUntilRunning] arranges to hide after two seconds,
    is taken down 200 ms after it appeared, by the fade timer of the
    "starting" notice that the heartbeat dismissed just before. *)
Example ready_notice_cut_short :
  option_map (map (fun s => (now s, map textContent (visible s))))
             (states_along (init false) ready_cut_short_trace)
  = Some [ (100, []); (100, [MSG_STARTING]);
           (150, [MSG_STARTING]); (150, [MSG_STARTING]);
           (160, [MSG_STARTING]); (160, [MSG_STARTING]);
           (200, [MSG_STARTING]); (200, [MSG_STARTING]);
           (300, [MSG_STARTING]); (300, [MSG_READY]);
           (500, [MSG_READY]); (500, []) ]%N.
Proof. vm_compute. reflexivity. Qed.

(** Nor is this particular to these two runs.  In any state with a notice
    on display, let [hideNotification] be called, let the loop wait
    [dt < 300] ms, let [showNotification] be called and let the loop wait
    for the rest of the 300 ms.  Whenever the loop can make these two
    waits, that is, nothing else falls due in them, the timer set by
    [hideNotification] is due, and firing it removes the new notice. *)
Lemma fade_timer_takes_current_notice :
  forall (s : State) (e : nat) (dt : N) (m ty : string) (sa sb : State),
    api_reachable s ->
    notificationEl s = Some e ->
    (dt < FADE_DELAY)%N ->
    step (hideNotification s) (EvWait dt) = Some sa ->
    step (showNotification m ty sa) (EvWait (FADE_DELAY - dt)) = Some sb ->
    acts s [ CallHide; Turn (EvWait dt); CallShow m ty;
             Turn (EvWait (FADE_DELAY - dt)) ] = Some sb /\
    visible sb = [mkElement m (css_of ty) ""] /\
    exists s2,
      step sb (EvTimer (next_timer s)) = Some s2 /\
      visible s2 = [] /\ notificationEl s2 = None /\ timers s2 = timers s.
Proof.
  intros s e dt m ty sa sb Hr He Hdt Hsa Hsb.
  assert (HI : Inv s) by now apply api_reachable_Inv.
  assert (Hacts : acts s [ CallHide; Turn (EvWait dt); CallShow m ty;
                           Turn (EvWait (FADE_DELAY - dt)) ] = Some sb).
  { cbn [acts act]. rewrite Hsa. rewrite Hsb. reflexivity. }
  apply step_wait_inv in Hsa as [_ ->]. apply step_wait_inv in Hsb as [_ ->].
  set (s1 := showNotification m ty (elapse dt (hideNotification s))) in *.
  assert (Hfresh : forall y, In y (timers s) -> has_tid (next_timer s) y = false).
  { intros y Hy. unfold has_tid. apply Nat.eqb_neq.
    pose proof (inv_tid_fresh s HI y Hy). lia. }
  assert (Ht : timers s1 = timers s ++ [mkTimer (next_timer s) (now s + FADE_DELAY) CbFade None]).
  { subst s1. unfold hideNotification. rewrite He. unfold showNotification. simpl.
    rewrite He. reflexivity. }
  assert (Hnow : now s1 = (now s + dt)%N).
  { subst s1. unfold hideNotification. rewrite He. unfold showNotification. simpl.
    rewrite He. reflexivity. }
  split; [exact Hacts|]. split.
  - change (visible (elapse (FADE_DELAY - dt) s1)) with (visible s1).
    subst s1. apply visible_showNotification.
    now apply Inv_set_now, Inv_hideNotification.
  - unfold step, fire. cbn [timers elapse set_now]. rewrite Ht.
    rewrite (lookup_by_app_new _ _ _ Hfresh) by (unfold has_tid; simpl; apply Nat.eqb_refl).
    cbn [t_due t_period t_cb now elapse set_now]. rewrite Hnow.
    replace (N.eqb _ _) with true by (symmetry; apply N.eqb_eq; unfold FADE_DELAY in *; lia).
    rewrite (remove_by_app_new _ _ _ Hfresh) by (unfold has_tid; simpl; apply Nat.eqb_refl).
    eexists. split; [reflexivity|].
    subst s1. unfold hideNotification. rewrite He.
    unfold showNotification. simpl. rewrite He. simpl.
    unfold fade_callback, visible. simpl. rewrite (inv_body s HI), He. simpl.
    rewrite !Nat.eqb_refl. simpl. rewrite Nat.eqb_refl. auto.
Qed.

(** ** What the poller and the overlay leave alone *)

Lemma same_heartbeat_refl (s : State) : same_heartbeat s s.
Proof. repeat split. Qed.

Lemma same_heartbeat_trans (s1 s2 s3 : State) :
  same_heartbeat s1 s2 -> same_heartbeat s2 s3 -> same_heartbeat s1 s3.
Proof.
  intros (A1 & A2 & A3 & A4) (B1 & B2 & B3 & B4).
  repeat split; congruence.
Qed.

Lemma same_heartbeat_new_timer (t : Timer) (n : nat) (s : State) :
  is_ping_timer t = false ->
  same_heartbeat s (set_next_timer n (set_timers (timers s ++ [t]) s)).
Proof.
  intros Ht. repeat split. unfold ping_timers; simpl.
  rewrite filter_app; simpl. rewrite Ht. apply app_nil_r.
Qed.

Lemma same_heartbeat_showNotification (m ty : string) (s : State) :
  same_heartbeat s (showNotification m ty s).
Proof. unfold showNotification. destruct (notificationEl s); repeat split. Qed.

Lemma same_heartbeat_hideNotification (s : State) :
  same_heartbeat s (hideNotification s).
Proof.
  unfold hideNotification. destruct (notificationEl s) as [e|].
  - apply (same_heartbeat_new_timer _ _ (el_set_opacity e "0" s)). reflexivity.
  - apply same_heartbeat_refl.
Qed.

Lemma same_heartbeat_fade_callback (s : State) :
  same_heartbeat s (fade_callback s).
Proof. unfold fade_callback. destruct (notificationEl s); repeat split. Qed.

Lemma same_heartbeat_poll (sid : nat) (s : State) : same_heartbeat s (poll sid s).
Proof.
  repeat split. unfold heartbeats; simpl. rewrite filter_app; simpl. apply app_nil_r.
Qed.

Lemma same_heartbeat_checkState_resume (o : Outcome) (s : State) :
  same_heartbeat s (fst (checkState_resume o s)).
Proof.
  destruct o as [|st]; unfold checkState_resume; [apply same_heartbeat_refl|].
  destruct (state_is st "running"); cbn [fst].
  - eapply same_heartbeat_trans; [apply same_heartbeat_showNotification|].
    now apply same_heartbeat_new_timer.
  - destruct (state_is st "starting"); cbn [fst].
    + apply same_heartbeat_refl.
    + apply same_heartbeat_hideNotification.
Qed.

Lemma same_heartbeat_poll_resume (sid : nat) (o : Outcome) (s : State) :
  same_heartbeat s (poll_resume sid o s).
Proof.
  unfold poll_resume.
  pose proof (same_heartbeat_checkState_resume o s) as H.
  destruct (checkState_resume o s) as [s1 done]; cbn [fst] in H.
  destruct done; auto.
  eapply same_heartbeat_trans; [exact H|]. now apply same_heartbeat_new_timer.
Qed.

Lemma same_heartbeat_ping_resume (o : Outcome) (s : State) :
  same_heartbeat s (ping_resume o s).
Proof.
  destruct o as [|st]; unfold ping_resume; [repeat split|].
  apply (same_heartbeat_trans _
           (if state_is st "starting"
            then pollUntilRunning (showNotification MSG_STARTING "info" s)
            else if state_is st "running" then hideNotification s else s));
    [|repeat split].
  destruct (state_is st "starting").
  - eapply same_heartbeat_trans; [apply same_heartbeat_showNotification|].
    apply same_heartbeat_poll.
  - destruct (state_is st "running");
      [apply same_heartbeat_hideNotification|apply same_heartbeat_refl].
Qed.

Lemma same_heartbeat_deliver (id : nat) (o : Outcome) (s s' : State) :
  deliver id o s = Some s' -> same_heartbeat s s'.
Proof.
  unfold deliver.
  destruct (lookup_by (has_fid id) (fetches s)) as [f|]; [|discriminate].
  intros H. injection H as <-.
  apply (same_heartbeat_trans _ (set_fetches (remove_by (has_fid id) (fetches s)) s));
    [repeat split|].
  destruct (f_cont f);
    [apply same_heartbeat_ping_resume|apply same_heartbeat_poll_resume].
Qed.

(** ** The heartbeat and its answers *)

Lemma filter_none {A : Type} (q : A -> bool) (l : list A) :
  (forall x, In x l -> q x = false) -> filter q l = [].
Proof.
  induction l as [|a l IH]; simpl; auto.
  intros H. rewrite (H a) by auto. auto.
Qed.

(** C8. A heartbeat whose request fails can always be settled, and
    settling it only drops the request from the requests in flight and
    writes one line to the console: the overlay, the timer table (so the
    next tick, still due when it was), [pingInterval], the poll sessions
    and the requests sent are as before.  A response without a
    recognisable [state] field leads to the same state, up to the console
    line. *)
Theorem heartbeat_failure_is_absorbed :
  forall (s : State) (id : nat) (f : Fetch),
    lookup_by (has_fid id) (fetches s) = Some f ->
    f_cont f = KPing ->
    let s0 := set_fetches (remove_by (has_fid id) (fetches s)) s in
    exists s',
      step s (EvResponse id Throws) = Some s' /\
      s' = console_log LogPingFailed s0 /\
      visible s' = visible s /\
      notificationEl s' = notificationEl s /\
      timers s' = timers s /\
      pingInterval s' = pingInterval s /\
      active_sessions s' = active_sessions s /\
      requests s' = requests s /\
      console s' = console s ++ [LogPingFailed] /\
      deliver id (Body None) s = Some (console_log (LogPingSent None) s0).
Proof.
  intros s id f Hf Hk s0. exists (console_log LogPingFailed s0).
  unfold step, deliver. rewrite Hf, Hk, orb_true_r. simpl.
  repeat split.
  unfold active_sessions; simpl. f_equal.
  apply (flat_map_remove_by_nil _ _ _ f); auto.
  unfold fetch_sid. now rewrite Hk.
Qed.

Lemma heartbeat_failure_is_absorbed_witness :
  exists s',
    step (init false) (EvResponse 0 Throws) = Some s' /\
    visible s' = visible (init false) /\
    timers s' = timers (init false).
Proof.
  destruct (heartbeat_failure_is_absorbed (init false) 0 (mkFetch 0 0 KPing)
              eq_refl eq_refl) as (s' & H1 & _ & H2 & _ & H3 & _).
  exists s'. repeat split; assumption.
Defined.

(** C2: what the script does when the first attempt of a session fails.
    The session is over, but the "starting" notice is still on display,
    unfaded, and the only timer left is the heartbeat: nothing is
    scheduled that would take the notice down. *)
Theorem failed_poll_keeps_notice :
  exists s,
    run (init false) failed_poll_trace = Some s /\
    active_sessions s = [] /\
    fetches s = [] /\
    visible s = [notice_starting] /\
    timers s = [mkTimer 1 60000 CbPing (Some PING_INTERVAL)].
Proof. eexists. split; [vm_compute; reflexivity|]. repeat split. Qed.

(** The branch taken on a failure changes nothing at all, while the
    branch for an unexpected state calls [hideNotification]. *)
Lemma poll_resume_failure (sid : nat) (s : State) :
  poll_resume sid Throws s = s /\
  poll_resume sid (Body (Some "stopped")) s = hideNotification s.
Proof. split; reflexivity. Qed.

(** C1, counterexample: after the tab was left and entered again while
    a session was polling, two poll sessions are active, each with an
    attempt in flight. *)
Lemma two_sessions_counterexample :
  exists s,
    run (init false) two_sessions_trace = Some s /\
    active_sessions s = [1; 3] /\
    map f_cont (fetches s) = [KPoll 1; KPoll 3].
Proof. eexists. split; [vm_compute; reflexivity|]. split; reflexivity. Qed.

(** The same without anyone touching the tab, when the backend takes
    more than a minute to start. *)
Example two_sessions_by_tick :
  option_map (fun s => (now s, active_sessions s, map f_cont (fetches s)))
             (run (init false) slow_start_trace)
  = Some (60000%N, [1; 32], [KPoll 1; KPoll 32]).
Proof. vm_compute. reflexivity. Qed.

(** C1, amended.  Whenever a heartbeat is answered "starting", a poll
    session is started, whether or not others are active: the sessions
    active before stay active, and one more, new session is active, with
    its first attempt sent at once. *)
Theorem starting_heartbeat_starts_a_session :
  forall (s : State) (id : nat) (f : Fetch),
    reachable s ->
    lookup_by (has_fid id) (fetches s) = Some f ->
    f_cont f = KPing ->
    let sid := List.length (requests s) in
    exists s',
      deliver id starting s = Some s' /\
      ~ In sid (active_sessions s) /\
      Permutation (active_sessions s') (sid :: active_sessions s) /\
      List.length (active_sessions s') = S (List.length (active_sessions s)) /\
      requests s' = requests s ++ [mkRequest (now s) (KPoll sid)] /\
      attempts sid s' = [mkRequest (now s) (KPoll sid)] /\
      visible s' = [notice_starting].
Proof.
  intros s id f Hr Hf Hk sid.
  pose proof (reachable_Inv s Hr) as HI.
  destruct (Inv_take_fetch id f s HI Hf) as [HI0 _].
  set (s0 := set_fetches (remove_by (has_fid id) (fetches s)) s) in *.
  assert (Hact0 : active_sessions s0 = active_sessions s).
  { unfold active_sessions; simpl. f_equal.
    apply (flat_map_remove_by_nil _ _ _ f); auto.
    unfold fetch_sid. now rewrite Hk. }
  set (s1 := showNotification MSG_STARTING "info" s0).
  assert (Hact1 : active_sessions s1 = active_sessions s).
  { rewrite <- Hact0. unfold s1, showNotification.
    destruct (notificationEl s0); reflexivity. }
  assert (Hreq1 : requests s1 = requests s).
  { unfold s1, showNotification. destruct (notificationEl s0); reflexivity. }
  assert (Hnow1 : now s1 = now s).
  { unfold s1, showNotification. destruct (notificationEl s0); reflexivity. }
  assert (Hvis1 : visible s1 = [notice_starting])
    by now apply visible_showNotification.
  assert (Hsent : requests (console_log (LogPingSent (Some "starting"))
                                        (pollUntilRunning s1))
                  = requests s ++ [mkRequest (now s) (KPoll sid)]).
  { change (requests s1 ++ [mkRequest (now s1) (KPoll (List.length (requests s1)))]
            = requests s ++ [mkRequest (now s) (KPoll sid)]).
    now rewrite Hreq1, Hnow1. }
  assert (Hperm : Permutation
                    (active_sessions (console_log (LogPingSent (Some "starting"))
                                        (pollUntilRunning s1)))
                    (sid :: active_sessions s)).
  { rewrite <- Hact1. unfold sid. rewrite <- Hreq1.
    apply (active_sessions_fetch (KPoll (List.length (requests s1))) s1). }
  exists (console_log (LogPingSent (Some "starting")) (pollUntilRunning s1)).
  split; [|split; [|split; [|split; [|split; [|split]]]]].
  - unfold deliver. rewrite Hf, Hk. reflexivity.
  - intros Hin. apply (inv_sid_fresh s HI) in Hin. unfold sid in Hin. lia.
  - exact Hperm.
  - now rewrite (Permutation_length Hperm).
  - exact Hsent.
  - unfold attempts. rewrite Hsent, filter_app. simpl.
    unfold is_poll_of at 2. simpl. rewrite Nat.eqb_refl.
    rewrite filter_none; [reflexivity|].
    intros r Hr'. unfold is_poll_of. destruct (rq_from r) as [|x] eqn:E; auto.
    apply Nat.eqb_neq. pose proof (inv_req_sid s HI r x Hr' E). unfold sid. lia.
  - exact Hvis1.
Qed.

Lemma starting_heartbeat_starts_a_session_witness :
  exists s',
    deliver 0 starting (init false) = Some s' /\
    List.length (active_sessions s') = 1.
Proof.
  assert (Hr : reachable (init false)) by (exists false, []; reflexivity).
  destruct (starting_heartbeat_starts_a_session (init false) 0 (mkFetch 0 0 KPing)
              Hr eq_refl eq_refl) as (s' & H1 & _ & _ & H2 & _).
  exists s'. split; [exact H1|exact H2].
Defined.

(** ** A poll session, round by round *)

Lemma ends_session_false (o : Outcome) : ends_session o = false <-> o = starting.
Proof.
  split.
  - destruct o as [|[st|]]; simpl; try discriminate.
    destruct (String.eqb st "running"); [discriminate|].
    destruct (String.eqb st "starting") eqn:E; [|discriminate].
    apply String.eqb_eq in E. now subst.
  - intros ->. reflexivity.
Qed.

Lemma session_fetch_unique (sid : nat) (f : Fetch) (s : State) :
  Inv s -> session_fetch sid s = Some f ->
  lookup_by (has_fid (f_id f)) (fetches s) = Some f /\ f_cont f = KPoll sid.
Proof.
  intros HI H. destruct (lookup_by_In _ _ _ H) as [Hin Hp].
  split.
  - destruct (lookup_by_some_of (has_fid (f_id f)) (fetches s) f Hin) as [y Hy].
    { unfold has_fid. apply Nat.eqb_refl. }
    rewrite Hy. f_equal.
    destruct (lookup_by_In _ _ _ Hy) as [Hy1 Hy2].
    unfold has_fid in Hy2. apply Nat.eqb_eq in Hy2.
    apply (NoDup_map_unique f_id (fetches s)); auto using inv_fid_nodup.
  - unfold awaits_poll in Hp. destruct (f_cont f) as [|x]; [discriminate|].
    apply Nat.eqb_eq in Hp. now subst.
Qed.

Lemma no_session_timer (sid : nat) (l : list Timer) :
  ~ In sid (flat_map timer_sid l) ->
  forall y, In y l -> runs_poll sid y = false.
Proof.
  intros Hnot y Hy. destruct (runs_poll sid y) eqn:E; auto.
  exfalso. apply Hnot. apply in_flat_map. exists y. split; auto.
  unfold runs_poll in E. unfold timer_sid.
  destruct (t_cb y); try discriminate.
  apply Nat.eqb_eq in E. subst. now left.
Qed.

Lemma session_fetch_active (sid : nat) (f : Fetch) (s : State) :
  session_fetch sid s = Some f -> In sid (active_sessions s).
Proof.
  intros H. destruct (lookup_by_In _ _ _ H) as [Hin Hp].
  apply in_or_app. left. apply in_flat_map. exists f. split; auto.
  unfold awaits_poll in Hp. unfold fetch_sid.
  destruct (f_cont f); [discriminate|].
  apply Nat.eqb_eq in Hp. subst. now left.
Qed.

Lemma fire_new_timeout (cb : Callback) (d v : N) (s : State) :
  Inv s ->
  let s2 := set_now v (snd (setTimeout cb d s)) in
  fire (next_timer s) s2 = Some (run_callback cb (set_timers (timers s) s2)).
Proof.
  intros HI s2.
  assert (Hfresh : forall y, In y (timers s) -> has_tid (next_timer s) y = false).
  { intros y Hy. unfold has_tid. apply Nat.eqb_neq.
    pose proof (inv_tid_fresh s HI y Hy). lia. }
  unfold fire.
  change (timers s2) with (timers s ++ [mkTimer (next_timer s) (now s + d) cb None]).
  rewrite (lookup_by_app_new _ (timers s) _ Hfresh)
    by (unfold has_tid; simpl; apply Nat.eqb_refl).
  cbn [t_period t_cb].
  rewrite (remove_by_app_new _ (timers s) _ Hfresh)
    by (unfold has_tid; simpl; apply Nat.eqb_refl).
  reflexivity.
Qed.

Lemma session_round_spec (sid : nat) (lat : N) (o : Outcome) (s : State) (f : Fetch) :
  Inv s -> session_fetch sid s = Some f ->
  exists s',
    session_round sid lat o s = Some s' /\ Inv s' /\ same_heartbeat s s' /\
    if ends_session o
    then ~ In sid (active_sessions s') /\ requests s' = requests s
    else (exists f', session_fetch sid s' = Some f') /\
         requests s' = requests s ++ [mkRequest (now s + lat + POLL_DELAY) (KPoll sid)].
Proof.
  intros HI Hsf.
  destruct (session_fetch_unique sid f s HI Hsf) as [Hf Hk].
  pose proof (Inv_set_now (now s + lat) s HI) as HIa.
  change (set_now (now s + lat) s) with (elapse lat s) in HIa.
  destruct (Inv_take_fetch (f_id f) f (elapse lat s) HIa Hf) as [HI0 Hfresh].
  destruct (Hfresh sid Hk) as [Hlt Hnot]. clear Hfresh.
  set (s0 := set_fetches (remove_by (has_fid (f_id f)) (fetches s)) (elapse lat s)) in *.
  assert (Hdel : deliver (f_id f) o (elapse lat s) = Some (poll_resume sid o s0)).
  { unfold deliver. change (fetches (elapse lat s)) with (fetches s).
    now rewrite Hf, Hk. }
  pose proof (Inv_checkState_resume o s0 HI0) as HI1.
  pose proof (same_heartbeat_checkState_resume o s0) as Hsame.
  pose proof (checkState_resume_frame o s0) as (Ef & Er & _ & _ & En & Et & _).
  pose proof (checkState_resume_done o s0) as Hdone.
  unfold session_round. rewrite Hsf, Hdel. unfold poll_resume.
  destruct (checkState_resume o s0) as [s1 done]. cbn [fst snd] in *.
  assert (Hnot1 : ~ In sid (active_sessions s1)).
  { unfold active_sessions. rewrite Ef, Et. exact Hnot. }
  assert (Hnone : forall y, In y (timers s1) -> runs_poll sid y = false).
  { apply no_session_timer. intros Hin. apply Hnot1, in_or_app. now right. }
  rewrite <- Hdone. destruct done.
  - exists s1. unfold session_timer.
    destruct (lookup_by (runs_poll sid) (timers s1)) as [t|] eqn:E.
    { destruct (lookup_by_In _ _ _ E) as [Hin Hp].
      rewrite (Hnone t Hin) in Hp. discriminate. }
    repeat split; try apply HI1; try apply Hsame; auto.
  - assert (HI2 : Inv (snd (setTimeout (CbPoll sid) POLL_DELAY s1))).
    { apply Inv_setTimeout; auto; [discriminate|].
      intros x Hx. injection Hx as <-. rewrite Er. auto. }
    set (new := mkTimer (next_timer s1) (now s1 + POLL_DELAY) (CbPoll sid) None).
    set (s2 := snd (setTimeout (CbPoll sid) POLL_DELAY s1)) in *.
    assert (Hst : session_timer sid s2 = Some new).
    { unfold session_timer. change (timers s2) with (timers s1 ++ [new]).
      apply lookup_by_app_new; auto.
      unfold runs_poll; simpl. apply Nat.eqb_refl. }
    pose proof (fire_new_timeout (CbPoll sid) POLL_DELAY (t_due new) s1 HI1) as Hfire.
    cbv zeta in Hfire. fold s2 in Hfire.
    rewrite Hst. change (t_id new) with (next_timer s1). rewrite Hfire.
    eexists. split; [reflexivity|].
    split; [|split; [|split]].
    + eapply Inv_fire; [|exact Hfire]. now apply Inv_set_now.
    + eapply same_heartbeat_trans; [|apply same_heartbeat_poll].
      destruct Hsame as (A1 & A2 & A3 & A4). repeat split; assumption.
    + destruct (lookup_by_some_of (awaits_poll sid)
                  (fetches s1 ++ [mkFetch (List.length (requests s1))
                                          (now s1 + POLL_DELAY) (KPoll sid)])
                  (mkFetch (List.length (requests s1)) (now s1 + POLL_DELAY) (KPoll sid)))
        as [f' Hf'].
      { apply in_or_app. right. now left. }
      { unfold awaits_poll; simpl. apply Nat.eqb_refl. }
      exists f'. exact Hf'.
    + simpl. now rewrite Er, En.
Qed.

Lemma session_run_app (sid : nat) (a b : list (N * Outcome)) (s : State) :
  session_run sid (a ++ b) s =
  match session_run sid a s with
  | Some s1 => session_run sid b s1
  | None => None
  end.
Proof.
  revert s. induction a as [|[lat o] a IH]; simpl; auto.
  intros s. destruct (session_round sid lat o s); auto.
Qed.

Lemma session_run_starting (sid : nat) (pre : list (N * Outcome)) :
  (forall x, In x pre -> snd x = starting) ->
  forall (s : State) (f : Fetch),
    Inv s -> session_fetch sid s = Some f ->
    exists s' new,
      session_run sid pre s = Some s' /\ Inv s' /\ same_heartbeat s s' /\
      (exists f', session_fetch sid s' = Some f') /\
      requests s' = requests s ++ new /\
      List.length new = List.length pre /\
      (forall r, In r new -> rq_from r = KPoll sid).
Proof.
  induction pre as [|[lat o] pre IH]; intros Hpre s f HI Hsf.
  - exists s, []. simpl. rewrite app_nil_r.
    split; [reflexivity|]. split; [assumption|].
    split; [apply same_heartbeat_refl|]. split; [eauto|].
    repeat split. intros r Hr. destruct Hr.
  - assert (Ho : o = starting) by (apply (Hpre (lat, o)); now left).
    subst o.
    destruct (session_round_spec sid lat starting s f HI Hsf)
      as (s1 & Hround & HI1 & Hsame1 & Hlast).
    change (ends_session starting) with false in Hlast. cbv iota in Hlast.
    destruct Hlast as [[f1 Hsf1] Hreq1].
    destruct (IH (fun x Hx => Hpre x (or_intror Hx)) s1 f1 HI1 Hsf1)
      as (s' & new & Hrun & HI' & Hsame' & Hsf' & Hreq' & Hlen & Hnew).
    exists s', (mkRequest (now s + lat + POLL_DELAY) (KPoll sid) :: new).
    simpl. rewrite Hround.
    split; [assumption|]. split; [assumption|].
    split; [eauto using same_heartbeat_trans|]. split; [assumption|].
    split; [|split].
    + rewrite Hreq', Hreq1, <- app_assoc. reflexivity.
    + now rewrite Hlen.
    + intros r [<-|Hr]; auto.
Qed.

(** ** Sessions are ended by their own responses only *)

Lemma active_sessions_showNotification (m ty : string) (s : State) :
  active_sessions (showNotification m ty s) = active_sessions s.
Proof. unfold showNotification. destruct (notificationEl s); reflexivity. Qed.

Lemma active_sessions_fade_callback (s : State) :
  active_sessions (fade_callback s) = active_sessions s.
Proof. unfold fade_callback. destruct (notificationEl s); reflexivity. Qed.

Lemma active_sessions_checkState_resume (o : Outcome) (s : State) :
  active_sessions (fst (checkState_resume o s)) = active_sessions s.
Proof.
  pose proof (checkState_resume_frame o s) as (Ef & _ & _ & _ & _ & Et & _).
  unfold active_sessions. now rewrite Ef, Et.
Qed.

Lemma active_sessions_stopPinging (s : State) :
  Inv s -> active_sessions (stopPinging s) = active_sessions s.
Proof.
  intros HI. unfold stopPinging. destruct (pingInterval s) as [id|] eqn:Hp; auto.
  destruct (stopPinging_takes_ping id s HI Hp) as (t & Ht & Hcb).
  unfold active_sessions; simpl. f_equal.
  apply (flat_map_remove_by_nil _ _ _ t); auto.
  unfold timer_sid. now rewrite Hcb.
Qed.

Lemma keeps_fetch (k : Cont) (s : State) (sid : nat) :
  In sid (active_sessions s) -> In sid (active_sessions (fetch k s)).
Proof.
  intros H. apply (Permutation_in _ (Permutation_sym (active_sessions_fetch k s))).
  apply in_or_app. now right.
Qed.

Lemma keeps_new_timer (t : Timer) (n : nat) (s : State) (sid : nat) :
  In sid (active_sessions s) ->
  In sid (active_sessions (set_next_timer n (set_timers (timers s ++ [t]) s))).
Proof.
  intros H.
  apply (Permutation_in _ (Permutation_sym (active_sessions_new_timer t n s))).
  apply in_or_app. now right.
Qed.

Lemma keeps_hideNotification (s : State) (sid : nat) :
  In sid (active_sessions s) -> In sid (active_sessions (hideNotification s)).
Proof.
  unfold hideNotification. destruct (notificationEl s) as [e|]; auto.
  apply (keeps_new_timer _ _ (el_set_opacity e "0" s)).
Qed.

Lemma keeps_ping (s : State) (sid : nat) :
  In sid (active_sessions s) -> In sid (active_sessions (ping s)).
Proof. unfold ping. destruct (hidden s); auto using keeps_fetch. Qed.

Lemma keeps_run_callback (cb : Callback) (s : State) (sid : nat) :
  In sid (active_sessions s) -> In sid (active_sessions (run_callback cb s)).
Proof.
  destruct cb; simpl.
  - apply keeps_ping.
  - now rewrite active_sessions_fade_callback.
  - apply keeps_hideNotification.
  - apply keeps_fetch.
Qed.

Lemma keeps_poll_resume (x : nat) (o : Outcome) (s : State) (sid : nat) :
  In sid (active_sessions s) -> In sid (active_sessions (poll_resume x o s)).
Proof.
  intros H. unfold poll_resume.
  pose proof (active_sessions_checkState_resume o s) as E.
  destruct (checkState_resume o s) as [s1 done]; cbn [fst] in E.
  rewrite <- E in H. destruct done; auto.
  now apply keeps_new_timer.
Qed.

Lemma keeps_ping_resume (o : Outcome) (s : State) (sid : nat) :
  In sid (active_sessions s) -> In sid (active_sessions (ping_resume o s)).
Proof.
  intros H. destruct o as [|st]; unfold ping_resume; auto.
  change (In sid (active_sessions
                    (if state_is st "starting"
                     then pollUntilRunning (showNotification MSG_STARTING "info" s)
                     else if state_is st "running" then hideNotification s else s))).
  destruct (state_is st "starting").
  - apply keeps_fetch. now rewrite active_sessions_showNotification.
  - destruct (state_is st "running"); auto using keeps_hideNotification.
Qed.

Lemma keeps_startPinging (s : State) (sid : nat) :
  In sid (active_sessions s) -> In sid (active_sessions (startPinging s)).
Proof.
  intros H. apply keeps_ping in H. unfold startPinging.
  destruct (pingInterval (ping s)); auto.
  exact (keeps_new_timer
           (mkTimer (next_timer (ping s)) (now (ping s) + PING_INTERVAL)
                    CbPing (Some PING_INTERVAL))
           (S (next_timer (ping s))) (ping s) sid H).
Qed.

Lemma poll_resume_starting_active (sid : nat) (s : State) :
  In sid (active_sessions (poll_resume sid starting s)).
Proof.
  apply (Permutation_in _ (Permutation_sym
           (active_sessions_new_timer
              (mkTimer (next_timer s) (now s + POLL_DELAY) (CbPoll sid) None)
              (S (next_timer s)) s))).
  now left.
Qed.

Lemma session_survives (e : Event) (s s' : State) (sid : nat) :
  Inv s -> step s e = Some s' ->
  In sid (active_sessions s) ->
  In sid (active_sessions s') \/
  exists id f o, e = EvResponse id o /\
                 lookup_by (has_fid id) (fetches s) = Some f /\
                 f_cont f = KPoll sid /\ o <> starting.
Proof.
  intros HI Hstep Hin. destruct e as [dt|id|id o|h]; simpl in Hstep.
  - destruct (may_elapse dt s); [|discriminate]. injection Hstep as <-. now left.
  - left. destruct (lookup_by (has_tid id) (timers s)) as [t|] eqn:Ht; [|discriminate].
    destruct (N.eqb _ _); [|discriminate].
    unfold fire in Hstep. rewrite Ht in Hstep. injection Hstep as <-.
    destruct (t_period t) as [p|].
    + apply keeps_run_callback. unfold active_sessions; simpl.
      rewrite flat_map_update_by; auto.
    + apply (Permutation_in _ (active_sessions_take_timer id t s Ht)) in Hin.
      apply in_app_or in Hin as [Hin|Hin]; [|now apply keeps_run_callback].
      unfold timer_sid in Hin. destruct (t_cb t) as [| | |x]; simpl in Hin; try tauto.
      destruct Hin as [->|[]]. simpl.
      apply (Permutation_in _ (Permutation_sym (active_sessions_fetch (KPoll sid) _))).
      now left.
  - destruct (lookup_by (has_fid id) (fetches s)) as [f|] eqn:Hf; [|discriminate].
    destruct (_ || _); [|discriminate].
    unfold deliver in Hstep. rewrite Hf in Hstep. injection Hstep as <-.
    apply (Permutation_in _ (active_sessions_take_fetch id f s Hf)) in Hin.
    apply in_app_or in Hin as [Hin|Hin].
    + unfold fetch_sid in Hin. destruct (f_cont f) as [|x] eqn:Hk; simpl in Hin; [tauto|].
      destruct Hin as [->|[]].
      destruct (ends_session o) eqn:Ho.
      * right. exists id, f, o. repeat split; auto.
        intros ->. discriminate.
      * left. apply ends_session_false in Ho. subst o.
        apply poll_resume_starting_active.
    + left. destruct (f_cont f);
        [now apply keeps_ping_resume|now apply keeps_poll_resume].
  - left. destruct (Bool.eqb h (hidden s)); [discriminate|]. injection Hstep as <-.
    unfold visibility, on_visibilitychange.
    destruct (hidden (set_hidden h s)).
    + rewrite active_sessions_stopPinging; auto using Inv_set_hidden.
    + now apply keeps_startPinging.
Qed.

(** C6. Take a session with an attempt in flight and let that attempt
    and the following ones be answered "starting" any number of times,
    then by anything else (a failure, "running", any other state).  As
    long as the answers are "starting" the session stays active and each
    answer is followed by exactly one further attempt; the other answer
    ends the session without a further attempt, and after it nothing of
    the session is left to run.  In the event loop at large, the only
    event that can end an active session is the response to one of its
    own attempts, with an outcome other than "starting". *)
Theorem poll_session_terminates :
  forall (s : State) (sid : nat) (f : Fetch)
         (pre : list (N * Outcome)) (lat : N) (o : Outcome),
    reachable s ->
    session_fetch sid s = Some f ->
    (forall x, In x pre -> snd x = starting) ->
    o <> starting ->
    (exists s1 new,
        session_run sid pre s = Some s1 /\
        In sid (active_sessions s1) /\
        requests s1 = requests s ++ new /\
        List.length new = List.length pre /\
        (forall r, In r new -> rq_from r = KPoll sid) /\
        exists s2,
          session_run sid (pre ++ [(lat, o)]) s = Some s2 /\
          ~ In sid (active_sessions s2) /\
          requests s2 = requests s1 /\
          forall lat' o', session_round sid lat' o' s2 = None) /\
    (forall e s',
        step s e = Some s' ->
        In sid (active_sessions s') \/
        exists id f' o', e = EvResponse id o' /\
                         lookup_by (has_fid id) (fetches s) = Some f' /\
                         f_cont f' = KPoll sid /\ o' <> starting).
Proof.
  intros s sid f pre lat o Hr Hsf Hpre Ho.
  pose proof (reachable_Inv s Hr) as HI.
  split.
  - destruct (session_run_starting sid pre Hpre s f HI Hsf)
      as (s1 & new & Hrun & HI1 & _ & [f1 Hsf1] & Hreq & Hlen & Hnew).
    exists s1, new. repeat (split; [assumption || eauto using session_fetch_active|]).
    destruct (session_round_spec sid lat o s1 f1 HI1 Hsf1)
      as (s2 & Hround & HI2 & _ & Hlast).
    destruct (ends_session o) eqn:E.
    2:{ apply ends_session_false in E. contradiction. }
    destruct Hlast as [Hnot Hreq2].
    exists s2. rewrite session_run_app, Hrun. simpl. rewrite Hround.
    repeat split; auto.
    intros lat' o'. unfold session_round.
    destruct (session_fetch sid s2) as [f2|] eqn:E2; auto.
    exfalso. eauto using session_fetch_active.
  - intros e s' Hstep.
    eapply session_survives; eauto using session_fetch_active.
Qed.

Lemma poll_session_terminates_witness :
  exists s2,
    session_run 1 ([(5%N, starting); (7%N, starting)] ++ [(9%N, running)])
                session_started = Some s2 /\
    ~ In 1 (active_sessions s2).
Proof.
  assert (Hr : reachable session_started).
  { exists false, [EvWait 100; EvResponse 0 starting]. vm_compute. reflexivity. }
  assert (Hpre : forall x, In x [(5%N, starting); (7%N, starting)] -> snd x = starting).
  { intros x [<-|[<-|[]]]; reflexivity. }
  assert (Ho : running <> starting) by discriminate.
  destruct (poll_session_terminates session_started 1 (mkFetch 1 100 (KPoll 1))
              [(5%N, starting); (7%N, starting)] 9%N running Hr eq_refl Hpre Ho)
    as [(s1 & new & _ & _ & _ & _ & _ & s2 & H1 & H2 & _) _].
  exists s2. split; [exact H1|exact H2].
Defined.

(** ** The heartbeat timer *)

Lemma filter_nil_all {A : Type} (q : A -> bool) (l : list A) :
  filter q l = [] -> forall x, In x l -> q x = false.
Proof.
  induction l as [|a l IH]; simpl; [tauto|].
  destruct (q a) eqn:E; [discriminate|].
  intros H x [<-|Hx]; auto.
Qed.

Lemma filter_only {A : Type} (q : A -> bool) (l : list A) (x : A) :
  NoDup l -> In x l -> q x = true ->
  (forall y, In y l -> q y = true -> y = x) ->
  filter q l = [x].
Proof.
  induction l as [|a l IH]; simpl; [tauto|].
  intros Hnd Hin Hq Hall. inversion Hnd as [|? ? Hnot Hnd']; subst.
  destruct Hin as [->|Hin].
  - rewrite Hq. f_equal. apply filter_none. intros y Hy.
    destruct (q y) eqn:E; auto.
    exfalso. apply Hnot. now rewrite <- (Hall y (or_intror Hy) E).
  - destruct (q a) eqn:E.
    + exfalso. apply Hnot. now rewrite (Hall a (or_introl eq_refl) E).
    + apply IH; auto.
Qed.

Lemma ping_timers_none (s : State) :
  Inv s -> pingInterval s = None -> ping_timers s = [].
Proof.
  intros HI Hp. apply filter_none. intros t Ht.
  pose proof (inv_ping_timer s HI t Ht) as H.
  unfold is_ping_timer. destruct (t_cb t); auto.
  destruct H. congruence.
Qed.

Lemma ping_timers_single (s : State) (id : nat) :
  Inv s -> pingInterval s = Some id ->
  exists t, ping_timers s = [t] /\ In t (timers s) /\ t_id t = id /\
            t_cb t = CbPing /\ t_period t = Some PING_INTERVAL /\
            lookup_by (has_tid id) (timers s) = Some t.
Proof.
  intros HI Hp.
  destruct (stopPinging_takes_ping id s HI Hp) as (t & Ht & Hcb).
  destruct (lookup_by_In _ _ _ Ht) as [Hin Hhas].
  unfold has_tid in Hhas. apply Nat.eqb_eq in Hhas.
  pose proof (inv_ping_timer s HI t Hin) as Hshape. rewrite Hcb in Hshape.
  exists t. repeat split; auto; [|tauto].
  apply filter_only; auto.
  - apply (NoDup_map_inv t_id), (inv_tid_nodup s HI).
  - unfold is_ping_timer. now rewrite Hcb.
  - intros y Hy Hq. apply (lookup_tid_unique id t y s HI Ht Hy).
    pose proof (inv_ping_timer s HI y Hy) as H.
    unfold is_ping_timer in Hq. destruct (t_cb y); try discriminate.
    destruct H. congruence.
Qed.

Lemma fire_frame (id : nat) (s s' : State) :
  fire id s = Some s' ->
  hidden s' = hidden s /\ pingInterval s' = pingInterval s /\
  (hidden s = true -> heartbeats s' = heartbeats s).
Proof.
  unfold fire. destruct (lookup_by (has_tid id) (timers s)) as [t|]; [|discriminate].
  intros H. injection H as <-.
  generalize (match t_period t with
              | Some p => update_by (has_tid id) (rearm p) (timers s)
              | None => remove_by (has_tid id) (timers s)
              end). intros ts.
  destruct (t_cb t); simpl.
  - unfold ping. change (hidden (set_timers ts s)) with (hidden s).
    destruct (hidden s) eqn:E; repeat split; simpl; auto; intros; discriminate.
  - unfold fade_callback; simpl. destruct (notificationEl s); repeat split.
  - unfold hideNotification; simpl. destruct (notificationEl s); repeat split.
  - repeat split. intros _. unfold heartbeats; simpl.
    rewrite filter_app; simpl. apply app_nil_r.
Qed.

Lemma fire_other_timer (id : nat) (t : Timer) (s s' : State) :
  Inv s -> lookup_by (has_tid id) (timers s) = Some t ->
  is_ping_timer t = false ->
  fire id s = Some s' -> same_heartbeat s s'.
Proof.
  intros HI Ht Hq. unfold fire. rewrite Ht.
  pose proof (inv_ping_timer s HI t (proj1 (lookup_by_In _ _ _ Ht))) as Hshape.
  unfold is_ping_timer in Hq.
  assert (Hper : t_period t = None) by (destruct (t_cb t); auto; discriminate).
  rewrite Hper. intros H. injection H as <-.
  apply (same_heartbeat_trans _ (set_timers (remove_by (has_tid id) (timers s)) s)).
  - repeat split. unfold ping_timers; simpl.
    apply (filter_remove_by_out _ _ _ t); auto.
  - destruct (t_cb t); [discriminate| | |]; simpl.
    + apply same_heartbeat_fade_callback.
    + apply same_heartbeat_hideNotification.
    + apply same_heartbeat_poll.
Qed.

Lemma step_frame (e : Event) (s s' : State) :
  step s e = Some s' -> not_visibility e ->
  hidden s' = hidden s /\ pingInterval s' = pingInterval s /\
  (hidden s = true -> heartbeats s' = heartbeats s).
Proof.
  destruct e as [dt|id|id o|h]; simpl; intros H Hv; [| | |tauto].
  - destruct (may_elapse dt s); [|discriminate]. injection H as <-. repeat split.
  - destruct (lookup_by (has_tid id) (timers s)); [|discriminate].
    destruct (N.eqb _ _); [|discriminate]. exact (fire_frame id s s' H).
  - destruct (lookup_by (has_fid id) (fetches s)); [|discriminate].
    destruct (_ || _); [|discriminate].
    destruct (same_heartbeat_deliver id o s s' H) as (A & B & _ & D). auto.
Qed.

Lemma step_without_heartbeat_timer (e : Event) (s s' : State) :
  Inv s -> ping_timers s = [] ->
  step s e = Some s' -> not_visibility e -> same_heartbeat s s'.
Proof.
  intros HI Hnone. destruct e as [dt|id|id o|h]; simpl; intros H Hv; [| | |tauto].
  - destruct (may_elapse dt s); [|discriminate]. injection H as <-. repeat split.
  - destruct (lookup_by (has_tid id) (timers s)) as [t|] eqn:Ht; [|discriminate].
    destruct (N.eqb _ _); [|discriminate].
    apply (fire_other_timer id t s s' HI Ht); auto.
    apply (filter_nil_all _ _ Hnone). apply (lookup_by_In _ _ _ Ht).
  - destruct (lookup_by (has_fid id) (fetches s)); [|discriminate].
    destruct (_ || _); [|discriminate]. eapply same_heartbeat_deliver; eauto.
Qed.

Lemma run_without_heartbeat_timer (evs : list Event) (s s' : State) :
  Inv s -> ping_timers s = [] ->
  run s evs = Some s' -> Forall not_visibility evs -> same_heartbeat s s'.
Proof.
  revert s. induction evs as [|e evs IH]; simpl; intros s HI Hnone H Hv.
  - injection H as <-. apply same_heartbeat_refl.
  - destruct (step s e) as [s1|] eqn:E; [|discriminate].
    inversion Hv as [|? ? Hv1 Hv2]; subst.
    pose proof (step_without_heartbeat_timer e s s1 HI Hnone E Hv1) as H1.
    apply (same_heartbeat_trans _ s1); auto.
    apply IH; eauto using Inv_step.
    destruct H1 as (_ & _ & -> & _). exact Hnone.
Qed.

Lemma session_run_terminal (sid : nat) (pre : list (N * Outcome)) (lat : N)
      (o : Outcome) (s : State) (f : Fetch) :
  Inv s -> session_fetch sid s = Some f ->
  (forall x, In x pre -> snd x = starting) -> o <> starting ->
  exists s2,
    session_run sid (pre ++ [(lat, o)]) s = Some s2 /\ Inv s2 /\
    ~ In sid (active_sessions s2) /\
    List.length (requests s2) = List.length (requests s) + List.length pre /\
    same_heartbeat s s2.
Proof.
  intros HI Hsf Hpre Ho.
  destruct (session_run_starting sid pre Hpre s f HI Hsf)
    as (s1 & new & Hrun & HI1 & Hsame1 & [f1 Hsf1] & Hreq & Hlen & _).
  destruct (session_round_spec sid lat o s1 f1 HI1 Hsf1)
    as (s2 & Hround & HI2 & Hsame2 & Hlast).
  destruct (ends_session o) eqn:E.
  2:{ apply ends_session_false in E. contradiction. }
  destruct Hlast as [Hnot Hreq2].
  exists s2. rewrite session_run_app, Hrun. simpl. rewrite Hround.
  split; [reflexivity|]. split; [assumption|]. split; [assumption|]. split.
  - now rewrite Hreq2, Hreq, length_app, Hlen.
  - apply (same_heartbeat_trans _ s1 _ Hsame1 Hsame2).
Qed.

Lemma session_run_same_heartbeat (sid : nat) (outs : list (N * Outcome)) :
  forall s s', Inv s -> session_run sid outs s = Some s' ->
               Inv s' /\ same_heartbeat s s'.
Proof.
  induction outs as [|[lat o] outs IH]; simpl; intros s s' HI H.
  - injection H as <-. split; [assumption|apply same_heartbeat_refl].
  - destruct (session_round sid lat o s) as [s1|] eqn:E; [|discriminate].
    assert (Hsf : exists f, session_fetch sid s = Some f).
    { unfold session_round in E. destruct (session_fetch sid s); eauto. discriminate. }
    destruct Hsf as [f Hsf].
    destruct (session_round_spec sid lat o s f HI Hsf) as (s1' & E' & HI1 & Hsame & _).
    rewrite E in E'. injection E' as <-.
    destruct (IH s1 s' HI1 H) as [HI' Hsame'].
    split; [assumption|]. eapply same_heartbeat_trans; eauto.
Qed.

Lemma run_session_survives (evs : list Event) (sid : nat) :
  forall s s', Inv s -> run s evs = Some s' ->
    In sid (active_sessions s) ->
    In sid (active_sessions s') \/
    exists id o, In (EvResponse id o) evs /\ o <> starting.
Proof.
  induction evs as [|e evs IH]; simpl; intros s s' HI H Hin.
  - injection H as <-. now left.
  - destruct (step s e) as [s1|] eqn:E; [|discriminate].
    destruct (session_survives e s s1 sid HI E Hin)
      as [Hin1|(id & f & o & -> & _ & _ & Ho)].
    + destruct (IH s1 s' (Inv_step _ _ _ HI E) H Hin1) as [?|(id & o & ? & ?)];
        [now left|right; eauto].
    + right. exists id, o. auto.
Qed.

(** ** Leaving the tab *)

(** C9. When a visible tab with an active poll session is hidden, the
    listener only clears the heartbeat interval: the requests in flight
    and the active sessions are as before.  A session with an attempt in
    flight then polls on to its end exactly as it would on a visible tab.
    However the event loop runs on until the tab becomes visible again,
    the heartbeat has no timer and sends nothing, and the session is gone
    only if a response other than "starting" came in. *)
Theorem hiding_tab_keeps_session :
  forall (s : State) (sid : nat),
    reachable s -> hidden s = false -> In sid (active_sessions s) ->
    exists s',
      step s (EvVisibility true) = Some s' /\
      hidden s' = true /\
      fetches s' = fetches s /\
      active_sessions s' = active_sessions s /\
      requests s' = requests s /\
      pingInterval s' = None /\
      ping_timers s' = [] /\
      (forall f pre lat o,
          session_fetch sid s = Some f ->
          (forall x, In x pre -> snd x = starting) -> o <> starting ->
          exists s2,
            session_run sid (pre ++ [(lat, o)]) s' = Some s2 /\
            ~ In sid (active_sessions s2) /\
            List.length (requests s2) = List.length (requests s') + List.length pre /\
            same_heartbeat s' s2) /\
      (forall evs s2,
          run s' evs = Some s2 -> Forall not_visibility evs ->
          same_heartbeat s' s2 /\
          (In sid (active_sessions s2) \/
           exists id o, In (EvResponse id o) evs /\ o <> starting)).
Proof.
  intros s sid Hr Hvis Hin.
  pose proof (reachable_Inv s Hr) as HI.
  pose proof (Inv_set_hidden true s HI) as HIh.
  pose proof (Inv_stopPinging _ HIh) as HI'.
  exists (stopPinging (set_hidden true s)).
  assert (Hfetches : fetches (stopPinging (set_hidden true s)) = fetches s).
  { unfold stopPinging. destruct (pingInterval (set_hidden true s)); reflexivity. }
  assert (Hreqs : requests (stopPinging (set_hidden true s)) = requests s).
  { unfold stopPinging. destruct (pingInterval (set_hidden true s)); reflexivity. }
  assert (Hnone : pingInterval (stopPinging (set_hidden true s)) = None).
  { unfold stopPinging. destruct (pingInterval (set_hidden true s)) eqn:E; auto. }
  assert (Hact : active_sessions (stopPinging (set_hidden true s)) = active_sessions s).
  { now rewrite active_sessions_stopPinging. }
  pose proof (ping_timers_none _ HI' Hnone) as Hpt.
  split; [|split; [|split; [|split; [|split; [|split; [|split; [|split]]]]]]]; auto.
  - simpl. rewrite Hvis. reflexivity.
  - unfold stopPinging. destruct (pingInterval (set_hidden true s)); reflexivity.
  - intros f pre lat o Hsf Hpre Ho.
    assert (Hsf' : session_fetch sid (stopPinging (set_hidden true s)) = Some f).
    { unfold session_fetch. now rewrite Hfetches. }
    destruct (session_run_terminal sid pre lat o _ f HI' Hsf' Hpre Ho)
      as (s2 & H1 & _ & H2 & H3 & H4).
    exists s2. auto.
  - intros evs s2 Hrun Hev. split.
    + now apply (run_without_heartbeat_timer evs).
    + apply (run_session_survives evs sid _ s2 HI' Hrun).
      now rewrite Hact.
Qed.

Lemma hiding_tab_keeps_session_witness :
  exists s',
    step session_started (EvVisibility true) = Some s' /\
    fetches s' = fetches session_started /\
    ping_timers s' = [].
Proof.
  assert (Hr : reachable session_started).
  { exists false, [EvWait 100; EvResponse 0 starting]. vm_compute. reflexivity. }
  assert (Hin : In 1 (active_sessions session_started)) by (now left).
  destruct (hiding_tab_keeps_session session_started 1 Hr eq_refl Hin)
    as (s' & H1 & _ & H2 & _ & _ & _ & H3 & _).
  exists s'. repeat split; assumption.
Defined.

(** ** The poller never touches the heartbeat *)

(** C10. No step of a poll session touches the heartbeat timer: starting
    the session, sending an attempt, every branch of [checkState] and of
    [poll] after the response, and the two overlay callbacks a session
    schedules all leave [pingInterval] as it is, create, re-arm or clear
    no heartbeat interval, and send no heartbeat.  So does a session as a
    whole, however long it runs and however it ends. *)
Theorem poll_session_leaves_heartbeat_timer :
  forall (sid : nat) (o : Outcome) (s : State),
    same_heartbeat s (pollUntilRunning s) /\
    same_heartbeat s (poll sid s) /\
    same_heartbeat s (fst (checkState_resume o s)) /\
    same_heartbeat s (poll_resume sid o s) /\
    same_heartbeat s (run_callback (CbPoll sid) s) /\
    same_heartbeat s (run_callback CbHideNotification s) /\
    same_heartbeat s (run_callback CbFade s) /\
    (reachable s ->
     forall outs s', session_run sid outs s = Some s' ->
                     pingInterval s' = pingInterval s /\ same_heartbeat s s').
Proof.
  intros sid o s.
  split; [apply same_heartbeat_poll|].
  split; [apply same_heartbeat_poll|].
  split; [apply same_heartbeat_checkState_resume|].
  split; [apply same_heartbeat_poll_resume|].
  split; [apply same_heartbeat_poll|].
  split; [apply same_heartbeat_hideNotification|].
  split; [apply same_heartbeat_fade_callback|].
  intros Hr outs s' Hrun.
  destruct (session_run_same_heartbeat sid outs s s' (reachable_Inv s Hr) Hrun)
    as [_ Hsame].
  split; [|exact Hsame]. now destruct Hsame as (_ & ? & _).
Qed.

Lemma poll_session_leaves_heartbeat_timer_witness :
  exists s',
    session_run 1 [(5%N, starting); (7%N, Throws)] session_started = Some s' /\
    pingInterval s' = pingInterval session_started.
Proof.
  assert (Hr : reachable session_started).
  { exists false, [EvWait 100; EvResponse 0 starting]. vm_compute. reflexivity. }
  destruct (poll_session_leaves_heartbeat_timer 1 Throws session_started)
    as (_ & _ & _ & _ & _ & _ & _ & H).
  specialize (H Hr [(5%N, starting); (7%N, Throws)]).
  destruct (session_run 1 [(5%N, starting); (7%N, Throws)] session_started)
    as [s'|] eqn:Hrun.
  - exists s'. split; [reflexivity|]. exact (proj1 (H s' eq_refl)).
  - vm_compute in Hrun. discriminate.
Defined.

(** ** Timers are never late *)

Lemma grow_refl (s : State) : timers_grow s s.
Proof. split; auto. Qed.

Lemma grow_trans (s1 s2 s3 : State) :
  timers_grow s1 s2 -> timers_grow s2 s3 -> timers_grow s1 s3.
Proof.
  intros [N1 T1] [N2 T2]. split; [congruence|].
  intros x Hx. destruct (T2 x Hx) as [H|H].
  - auto.
  - right. now rewrite <- N1.
Qed.

Lemma grow_same (s s' : State) :
  now s' = now s -> timers s' = timers s -> timers_grow s s'.
Proof. intros Hn Ht. split; auto. intros x Hx. left. now rewrite <- Ht. Qed.

Lemma grow_new_timer (t : Timer) (n : nat) (s : State) :
  (now s <= t_due t)%N ->
  (is_ping_timer t = true -> (t_due t <= now s + PING_INTERVAL)%N) ->
  timers_grow s (set_next_timer n (set_timers (timers s ++ [t]) s)).
Proof.
  intros H1 H2. split; auto. simpl. intros x Hx.
  apply in_app_or in Hx as [Hx|[<-|[]]]; auto.
Qed.

Lemma grow_remove (p : Timer -> bool) (s : State) :
  timers_grow s (set_timers (remove_by p (timers s)) s).
Proof. split; auto. simpl. intros x Hx. left. eapply remove_by_In; eauto. Qed.

Lemma grow_showNotification (m ty : string) (s : State) :
  timers_grow s (showNotification m ty s).
Proof.
  apply grow_same; unfold showNotification; destruct (notificationEl s); reflexivity.
Qed.

Lemma grow_hideNotification (s : State) : timers_grow s (hideNotification s).
Proof.
  unfold hideNotification. destruct (notificationEl s) as [e|]; [|apply grow_refl].
  apply (grow_new_timer _ _ (el_set_opacity e "0" s)); simpl; [lia|discriminate].
Qed.

Lemma grow_fade_callback (s : State) : timers_grow s (fade_callback s).
Proof.
  apply grow_same; unfold fade_callback; destruct (notificationEl s); reflexivity.
Qed.

Lemma grow_ping (s : State) : timers_grow s (ping s).
Proof. apply grow_same; unfold ping; destruct (hidden s); reflexivity. Qed.

Lemma grow_checkState_resume (o : Outcome) (s : State) :
  timers_grow s (fst (checkState_resume o s)).
Proof.
  destruct o as [|st]; unfold checkState_resume; [apply grow_refl|].
  destruct (state_is st "running"); cbn [fst].
  - eapply grow_trans; [apply (grow_showNotification MSG_READY "success")|].
    apply grow_new_timer; simpl; [lia|discriminate].
  - destruct (state_is st "starting"); cbn [fst];
      [apply grow_refl|apply grow_hideNotification].
Qed.

Lemma grow_poll_resume (sid : nat) (o : Outcome) (s : State) :
  timers_grow s (poll_resume sid o s).
Proof.
  unfold poll_resume. pose proof (grow_checkState_resume o s) as H.
  destruct (checkState_resume o s) as [s1 done]; cbn [fst] in H.
  destruct done; auto.
  eapply grow_trans; [exact H|]. apply grow_new_timer; simpl; [lia|discriminate].
Qed.

Lemma grow_ping_resume (o : Outcome) (s : State) : timers_grow s (ping_resume o s).
Proof.
  destruct o as [|st]; unfold ping_resume; [now apply grow_same|].
  apply (grow_trans _
           (if state_is st "starting"
            then pollUntilRunning (showNotification MSG_STARTING "info" s)
            else if state_is st "running" then hideNotification s else s));
    [|now apply grow_same].
  destruct (state_is st "starting").
  - eapply grow_trans; [apply (grow_showNotification MSG_STARTING "info")|].
    now apply grow_same.
  - destruct (state_is st "running"); [apply grow_hideNotification|apply grow_refl].
Qed.

Lemma grow_startPinging (s : State) : timers_grow s (startPinging s).
Proof.
  unfold startPinging. eapply grow_trans; [apply grow_ping|].
  destruct (pingInterval (ping s)); [apply grow_refl|].
  apply (grow_trans _ (snd (setInterval CbPing PING_INTERVAL (ping s))));
    [|now apply grow_same].
  apply grow_new_timer; simpl; lia.
Qed.

Lemma grow_stopPinging (s : State) : timers_grow s (stopPinging s).
Proof.
  unfold stopPinging. destruct (pingInterval s) as [id|]; [|apply grow_refl].
  apply (grow_trans _ (clearInterval id s)); [apply grow_remove|now apply grow_same].
Qed.

Lemma grow_run_callback (cb : Callback) (s : State) :
  timers_grow s (run_callback cb s).
Proof.
  destruct cb; simpl.
  - apply grow_ping.
  - apply grow_fade_callback.
  - apply grow_hideNotification.
  - now apply grow_same.
Qed.

Lemma on_time_grow (s s' : State) : on_time s -> timers_grow s s' -> on_time s'.
Proof.
  intros H [Hn Ht] x Hx. rewrite Hn.
  destruct (Ht x Hx) as [Hin|Hnew]; auto.
Qed.

Lemma may_elapse_timers (dt : N) (s : State) :
  may_elapse dt s = true ->
  forall t, In t (timers s) -> (now s + dt <= t_due t)%N.
Proof.
  unfold may_elapse. intros H t Ht.
  apply andb_true_iff in H as [H _].
  rewrite forallb_forall in H. apply N.leb_le. now apply H.
Qed.

Lemma on_time_step (e : Event) (s s' : State) :
  Inv s -> on_time s -> step s e = Some s' -> on_time s'.
Proof.
  intros HI Hot. destruct e as [dt|id|id o|h]; simpl.
  - destruct (may_elapse dt s) eqn:E; [|discriminate].
    intros H. injection H as <-. intros t Ht. simpl in *.
    pose proof (may_elapse_timers dt s E t Ht). destruct (Hot t Ht) as [_ H2].
    split; auto. intros Hq. specialize (H2 Hq). lia.
  - destruct (lookup_by (has_tid id) (timers s)) as [t|] eqn:Ht; [|discriminate].
    destruct (N.eqb (t_due t) (now s)) eqn:Hdue; [|discriminate].
    apply N.eqb_eq in Hdue.
    unfold fire. rewrite Ht. intros H. injection H as <-.
    eapply on_time_grow; [|apply grow_run_callback].
    destruct (lookup_by_In _ _ _ Ht) as [Hin _].
    pose proof (inv_ping_timer s HI t Hin) as Hshape.
    destruct (t_period t) as [p|] eqn:Hper.
    + intros x Hx. simpl in *. apply update_by_In in Hx.
      destruct Hx as [[Hx _]|[(y & Hy & ->)|[Hx _]]]; auto.
      assert (y = t) by congruence. subst y. simpl. rewrite Hdue.
      split; [lia|]. unfold is_ping_timer. simpl.
      destruct (t_cb t); try discriminate.
      destruct Hshape as [_ Hp]. injection Hp as ->. lia.
    + eapply on_time_grow; [exact Hot|apply grow_remove].
  - destruct (lookup_by (has_fid id) (fetches s)) as [f|] eqn:Hf; [|discriminate].
    destruct (_ || _); [|discriminate].
    unfold deliver. rewrite Hf. intros H. injection H as <-.
    apply (on_time_grow (set_fetches (remove_by (has_fid id) (fetches s)) s)).
    + exact Hot.
    + destruct (f_cont f); [apply grow_ping_resume|apply grow_poll_resume].
  - destruct (Bool.eqb h (hidden s)); [discriminate|].
    intros H. injection H as <-.
    apply (on_time_grow (set_hidden h s)); [exact Hot|].
    unfold visibility, on_visibilitychange.
    destruct (hidden (set_hidden h s)); [apply grow_stopPinging|apply grow_startPinging].
Qed.

Lemma on_time_init (h : bool) : on_time (init h).
Proof.
  apply (on_time_grow (module_loaded h)).
  - intros t [].
  - unfold init, setup.
    apply (grow_trans _ (startPinging (module_loaded h)));
      [apply grow_startPinging|now apply grow_same].
Qed.

Lemma reachable_on_time (s : State) : reachable s -> on_time s.
Proof.
  intros (h & evs & H).
  pose proof (Inv_init h) as HI. pose proof (on_time_init h) as Hot.
  revert H HI Hot. generalize (init h).
  induction evs as [|e evs IH]; simpl; intros s0 H HI Hot.
  - now injection H as <-.
  - destruct (step s0 e) as [s1|] eqn:E; [|discriminate].
    eauto using Inv_step, on_time_step.
Qed.

Lemma startPinging_sets (s : State) : pingInterval (startPinging s) <> None.
Proof.
  unfold startPinging. destruct (pingInterval (ping s)) eqn:E.
  - rewrite E. discriminate.
  - simpl. discriminate.
Qed.

Lemma alive_step (e : Event) (s s' : State) :
  alive s -> step s e = Some s' -> alive s'.
Proof.
  intros Ha Hstep. destruct e as [dt|id|id o|h].
  1-3: destruct (step_frame _ s s' Hstep I) as (Hh & Hp & _);
       unfold alive; rewrite Hh, Hp; exact Ha.
  simpl in Hstep. destruct (Bool.eqb h (hidden s)); [discriminate|].
  injection Hstep as <-. unfold visibility, on_visibilitychange.
  destruct h; simpl.
  - unfold alive, stopPinging. destruct (pingInterval (set_hidden true s)); discriminate.
  - intros _. apply startPinging_sets.
Qed.

Lemma reachable_alive (s : State) : reachable s -> alive s.
Proof.
  intros (h & evs & H).
  assert (Ha : alive (init h)) by (intros _; apply (startPinging_sets (module_loaded h))).
  revert H Ha. generalize (init h).
  induction evs as [|e evs IH]; simpl; intros s0 H Ha.
  - now injection H as <-.
  - destruct (step s0 e) as [s1|] eqn:E; [|discriminate].
    eauto using alive_step.
Qed.

(** ** The heartbeat follows the visibility of the tab *)

Lemma filter_update_by {A : Type} (p q : A -> bool) (f : A -> A) (l : list A) :
  (forall x, q (f x) = q x) ->
  (forall x, In x l -> p x = true -> q x = true) ->
  filter q (update_by p f l) = update_by p f (filter q l).
Proof.
  intros Hq. induction l as [|a l IH]; simpl; auto.
  intros Hl. destruct (p a) eqn:Ep.
  - simpl. rewrite Hq, (Hl a (or_introl eq_refl) Ep). simpl. now rewrite Ep.
  - simpl. destruct (q a) eqn:Eq; simpl; rewrite ?Ep, IH; auto.
Qed.

Lemma visible_heartbeat_timer (s : State) :
  reachable s -> hidden s = false ->
  exists t,
    ping_timers s = [t] /\ pingInterval s = Some (t_id t) /\
    t_cb t = CbPing /\ t_period t = Some PING_INTERVAL /\
    lookup_by (has_tid (t_id t)) (timers s) = Some t /\
    (now s <= t_due t)%N /\ (t_due t <= now s + PING_INTERVAL)%N.
Proof.
  intros Hr Hvis.
  pose proof (reachable_Inv s Hr) as HI.
  pose proof (reachable_alive s Hr Hvis) as Ha.
  destruct (pingInterval s) as [id|] eqn:Hp; [|congruence].
  destruct (ping_timers_single s id HI Hp) as (t & Hpt & Hin & Hid & Hcb & Hper & Hlk).
  destruct (reachable_on_time s Hr t Hin) as [H1 H2].
  exists t. subst id. repeat split; auto.
  apply H2. unfold is_ping_timer. now rewrite Hcb.
Qed.

(** C7. In every reachable state: if the tab is hidden, its becoming
    visible sends exactly one heartbeat, at that very moment, and until
    then no timer and no response makes the script send one; if the tab
    is visible, there is exactly one heartbeat timer, repeating every
    60 s and due within the next 60 s, time cannot pass beyond the moment
    it is due, and when it fires it sends exactly one heartbeat and is
    re-armed for 60 s later. *)
Theorem heartbeat_follows_visibility :
  forall (s : State),
    reachable s ->
    (hidden s = true ->
       (exists s',
           step s (EvVisibility false) = Some s' /\
           hidden s' = false /\
           requests s' = requests s ++ [mkRequest (now s) KPing]) /\
       (forall e s',
           not_visibility e -> step s e = Some s' ->
           hidden s' = true /\ heartbeats s' = heartbeats s)) /\
    (hidden s = false ->
       exists t,
         ping_timers s = [t] /\
         pingInterval s = Some (t_id t) /\
         t_period t = Some PING_INTERVAL /\
         (now s <= t_due t)%N /\ (t_due t <= now s + PING_INTERVAL)%N /\
         (forall dt s', step s (EvWait dt) = Some s' -> (now s + dt <= t_due t)%N) /\
         (t_due t = now s ->
          exists s',
            step s (EvTimer (t_id t)) = Some s' /\
            hidden s' = false /\
            requests s' = requests s ++ [mkRequest (now s) KPing] /\
            ping_timers s'
            = [mkTimer (t_id t) (now s + PING_INTERVAL) CbPing (Some PING_INTERVAL)])).
Proof.
  intros s Hr. split.
  - intros Hhid. split.
    + exists (visibility false s). simpl. rewrite Hhid. simpl.
      split; [reflexivity|].
      unfold visibility, on_visibilitychange, startPinging, ping. simpl.
      destruct (pingInterval s); split; reflexivity.
    + intros e s' Hv Hstep.
      destruct (step_frame e s s' Hstep Hv) as (Hh & _ & Hb).
      split; [congruence|auto].
  - intros Hvis.
    destruct (visible_heartbeat_timer s Hr Hvis)
      as (t & Hpt & Hp & Hcb & Hper & Hlk & Hlo & Hhi).
    exists t. repeat (split; [assumption|]). split.
    + intros dt s' Hstep. simpl in Hstep.
      destruct (may_elapse dt s) eqn:E; [|discriminate].
      apply (may_elapse_timers dt s E). apply (lookup_by_In _ _ _ Hlk).
    + intros Hdue. simpl. rewrite Hlk, Hdue, N.eqb_refl.
      unfold fire. rewrite Hlk, Hper, Hcb. simpl. unfold ping. simpl. rewrite Hvis.
      eexists. split; [reflexivity|]. split; [exact Hvis|]. split; [reflexivity|].
      unfold ping_timers in *. simpl.
      rewrite filter_update_by.
      * rewrite Hpt. simpl. unfold has_tid at 1. rewrite Nat.eqb_refl.
        unfold rearm. now rewrite Hdue, Hcb, Hper.
      * reflexivity.
      * intros x Hx Hid. unfold has_tid in Hid. apply Nat.eqb_eq in Hid.
        rewrite (lookup_tid_unique (t_id t) t x s (reachable_Inv s Hr) Hlk Hx Hid).
        unfold is_ping_timer. now rewrite Hcb.
Qed.

Lemma heartbeat_follows_visibility_witness :
  (exists s',
      step (init true) (EvVisibility false) = Some s' /\
      requests s' = requests (init true) ++ [mkRequest 0 KPing]) /\
  (exists t,
      ping_timers (init false) = [t] /\ t_period t = Some PING_INTERVAL).
Proof.
  split.
  - assert (Hr : reachable (init true)) by (exists true, []; reflexivity).
    destruct (heartbeat_follows_visibility (init true) Hr) as [H _].
    destruct (H eq_refl) as [(s' & H1 & _ & H2) _].
    exists s'. split; [exact H1|exact H2].
  - assert (Hr : reachable (init false)) by (exists false, []; reflexivity).
    destruct (heartbeat_follows_visibility (init false) Hr) as [_ H].
    destruct (H eq_refl) as (t & H1 & _ & H2 & _).
    exists t. split; [exact H1|exact H2].
Defined.

(** ** Scenario B *)

(** C4. Scenario B, for any latencies below the 5 s budget: the run is
    possible as written, so the timers fire exactly 2 s, 2 s and 300 ms
    after they were set.  The overlay is empty until the heartbeat is
    answered, then shows the "starting" notice until the second poll
    attempt is answered, then the "ready" notice, which fades 2 s later
    and is removed 300 ms after that.  Besides the heartbeat exactly two
    requests were sent, both by session 1, and at the end no session is
    active and only the heartbeat timer is left. *)
Theorem scenario_B_overlay :
  forall (l0 l1 l2 : N),
    (l0 < FETCH_TIMEOUT)%N -> (l1 < FETCH_TIMEOUT)%N -> (l2 < FETCH_TIMEOUT)%N ->
    exists sts s_end,
      states_along (init false) (scenario_B l0 l1 l2) = Some sts /\
      run (init false) (scenario_B l0 l1 l2) = Some s_end /\
      map visible sts =
      [ []; [notice_starting];
        [notice_starting]; [notice_starting];
        [notice_starting]; [notice_starting];
        [notice_starting]; [notice_ready];
        [notice_ready]; [notice_ready_faded];
        [notice_ready_faded]; [] ] /\
      map rq_from (requests s_end) = [KPing; KPoll 1; KPoll 1] /\
      attempts 1 s_end =
      [mkRequest l0 (KPoll 1); mkRequest (l0 + l1 + POLL_DELAY) (KPoll 1)] /\
      active_sessions s_end = [] /\
      fetches s_end = [] /\
      timers s_end = [mkTimer 1 PING_INTERVAL CbPing (Some PING_INTERVAL)] /\
      now s_end = (l0 + l1 + POLL_DELAY + l2 + READY_DELAY + FADE_DELAY)%N.
Proof.
  intros l0 l1 l2 H0 H1 H2.
  unfold FETCH_TIMEOUT, POLL_DELAY, READY_DELAY, FADE_DELAY, PING_INTERVAL in *.
  eexists. eexists.
  split; [|split].
  - unfold scenario_B, POLL_DELAY, READY_DELAY, FADE_DELAY.
    repeat (cbv -[N.add N.leb N.ltb N.eqb]; settle_guard).
    cbv -[N.add N.leb N.ltb N.eqb]. reflexivity.
  - unfold scenario_B, POLL_DELAY, READY_DELAY, FADE_DELAY.
    repeat (cbv -[N.add N.leb N.ltb N.eqb]; settle_guard).
    cbv -[N.add N.leb N.ltb N.eqb]. reflexivity.
  - cbn -[N.add]. repeat split; reflexivity.
Qed.

Lemma scenario_B_overlay_witness :
  exists s_end,
    run (init false) (scenario_B 120 80 95) = Some s_end /\
    attempts 1 s_end = [mkRequest 120 (KPoll 1); mkRequest 2200 (KPoll 1)] /\
    now s_end = 4595%N.
Proof.
  destruct (scenario_B_overlay 120 80 95 eq_refl eq_refl eq_refl)
    as (sts & s_end & _ & H1 & _ & _ & H2 & _ & _ & _ & H3).
  exists s_end. split; [exact H1|]. split; [exact H2|exact H3].
Defined.

(** * Further properties of the script *)

(** ** A backend that never answers "starting" *)

Lemma state_is_starting (st : option string) :
  Body st <> starting -> state_is st "starting" = false.
Proof.
  intros H. destruct st as [x|]; simpl; auto.
  destruct (String.eqb x "starting") eqn:E; auto.
  apply String.eqb_eq in E. subst. now elim H.
Qed.

Lemma ping_resume_without_notice (o : Outcome) (s : State) :
  notificationEl s = None -> o <> starting ->
  ping_resume o s =
  console_log (match o with Throws => LogPingFailed | Body st => LogPingSent st end) s.
Proof.
  intros Hn Ho. destruct o as [|st]; simpl; auto.
  rewrite (state_is_starting st Ho).
  destruct (state_is st "running"); auto.
  unfold hideNotification. now rewrite Hn.
Qed.

Lemma quiet_ping (s : State) : quiet s -> quiet (ping s).
Proof.
  intros (A & B & C & D & E). unfold ping. destruct (hidden s).
  - repeat split; auto.
  - repeat split; auto; simpl.
    + intros f Hf. apply in_app_or in Hf as [Hf|[<-|[]]]; auto.
    + intros r Hr. apply in_app_or in Hr as [Hr|[<-|[]]]; auto.
Qed.

Lemma quiet_startPinging (s : State) : quiet s -> quiet (startPinging s).
Proof.
  intros H. apply quiet_ping in H. destruct H as (A & B & C & D & E).
  unfold startPinging. destruct (pingInterval (ping s)).
  - repeat split; auto.
  - repeat split; auto; simpl.
    intros t Ht. apply in_app_or in Ht as [Ht|[<-|[]]]; auto.
Qed.

Lemma quiet_stopPinging (s : State) : quiet s -> quiet (stopPinging s).
Proof.
  intros (A & B & C & D & E). unfold stopPinging. destruct (pingInterval s).
  - repeat split; auto; simpl.
    intros t Ht. apply C. eapply remove_by_In; eauto.
  - repeat split; auto.
Qed.

Lemma quiet_step (e : Event) (s s' : State) :
  quiet s -> never_starting e -> step s e = Some s' -> quiet s'.
Proof.
  intros Hq Hns. destruct e as [dt|id|id o|h]; simpl.
  - destruct (may_elapse dt s); [|discriminate].
    intros H. injection H as <-. exact Hq.
  - destruct (lookup_by (has_tid id) (timers s)) as [t|] eqn:Ht; [|discriminate].
    destruct (N.eqb _ _); [|discriminate].
    unfold fire. rewrite Ht. intros H. injection H as <-.
    destruct Hq as (A & B & C & D & E).
    rewrite (C t (proj1 (lookup_by_In _ _ _ Ht))). simpl.
    apply quiet_ping. repeat split; auto; simpl.
    intros x Hx. destruct (t_period t) as [p|].
    + apply update_by_In in Hx.
      destruct Hx as [[Hx _]|[(y & Hy & ->)|[Hx _]]]; auto.
      simpl. apply C. apply (lookup_by_In _ _ _ Hy).
    + apply C. eapply remove_by_In; eauto.
  - destruct (lookup_by (has_fid id) (fetches s)) as [f|] eqn:Hf; [|discriminate].
    destruct (_ || _); [|discriminate].
    unfold deliver. rewrite Hf. intros H. injection H as <-.
    destruct Hq as (A & B & C & D & E).
    rewrite (D f (proj1 (lookup_by_In _ _ _ Hf))).
    rewrite ping_resume_without_notice; auto.
    repeat split; auto; simpl.
    intros x Hx. apply D. eapply remove_by_In; eauto.
  - destruct (Bool.eqb h (hidden s)); [discriminate|].
    intros H. injection H as <-.
    unfold visibility, on_visibilitychange.
    assert (Hq' : quiet (set_hidden h s)) by exact Hq.
    destruct (hidden (set_hidden h s));
      [now apply quiet_stopPinging|now apply quiet_startPinging].
Qed.

Lemma quiet_init (h : bool) : quiet (init h).
Proof.
  assert (H : quiet (module_loaded h)).
  { repeat split; simpl; auto; intros ? []. }
  apply quiet_startPinging in H. exact H.
Qed.

Lemma quiet_run (evs : list Event) (s s' : State) :
  quiet s -> Forall never_starting evs -> run s evs = Some s' -> quiet s'.
Proof.
  revert s. induction evs as [|e evs IH]; simpl; intros s Hq Hns H.
  - now injection H as <-.
  - destruct (step s e) as [s1|] eqn:E; [|discriminate].
    inversion Hns; subst. eauto using quiet_step.
Qed.

Lemma filter_all {A : Type} (q : A -> bool) (l : list A) :
  (forall x, In x l -> q x = true) -> filter q l = l.
Proof.
  induction l as [|a l IH]; simpl; auto.
  intros H. rewrite (H a) by auto. f_equal. auto.
Qed.

Lemma flat_map_nil {A B : Type} (g : A -> list B) (l : list A) :
  (forall x, In x l -> g x = []) -> flat_map g l = [].
Proof.
  induction l as [|a l IH]; simpl; auto.
  intros H. rewrite (H a) by auto. simpl. auto.
Qed.

(** X1. As long as no response is "starting" (answers "running", other
    states, missing fields and failures alike), whatever the timers and
    the visibility of the tab do, the script never shows a notice and
    never polls: nothing is attached to the body, no session is active,
    every timer is the heartbeat's and every request sent is a
    heartbeat. *)
Theorem quiet_backend_shows_nothing :
  forall (h : bool) (evs : list Event) (s : State),
    Forall never_starting evs ->
    run (init h) evs = Some s ->
    visible s = [] /\
    notificationEl s = None /\
    active_sessions s = [] /\
    timers s = ping_timers s /\
    requests s = heartbeats s.
Proof.
  intros h evs s Hns Hrun.
  destruct (quiet_run evs (init h) s (quiet_init h) Hns Hrun) as (A & B & C & D & E).
  split; [|split; [|split; [|split]]]; auto.
  - unfold visible. now rewrite B.
  - unfold active_sessions. rewrite !flat_map_nil; auto.
    + intros t Ht. unfold timer_sid. now rewrite (C t Ht).
    + intros f Hf. unfold fetch_sid. now rewrite (D f Hf).
  - unfold ping_timers. symmetry. apply filter_all.
    intros t Ht. unfold is_ping_timer. now rewrite (C t Ht).
  - unfold heartbeats. symmetry. apply filter_all.
    intros r Hr. unfold is_heartbeat. now rewrite (E r Hr).
Qed.

Lemma quiet_backend_shows_nothing_witness :
  exists s,
    run (init false) [EvWait 100; EvResponse 0 running; EvWait 59900; EvTimer 1;
                      EvWait 5000; EvResponse 1 Throws] = Some s /\
    visible s = [] /\ active_sessions s = [].
Proof.
  assert (Hns : Forall never_starting
                  [EvWait 100; EvResponse 0 running; EvWait 59900; EvTimer 1;
                   EvWait 5000; EvResponse 1 Throws]).
  { repeat constructor; discriminate. }
  destruct (run (init false) [EvWait 100; EvResponse 0 running; EvWait 59900; EvTimer 1;
                              EvWait 5000; EvResponse 1 Throws]) as [s|] eqn:Hrun.
  - exists s. split; [reflexivity|].
    destruct (quiet_backend_shows_nothing false _ s Hns Hrun) as (H1 & _ & H2 & _).
    split; assumption.
  - vm_compute in Hrun. discriminate.
Defined.

(** ** The plain variant *)

Lemma plain_step (e : Event) (s : State) :
  quiet s -> never_starting e ->
  Plain.step (plain_view s) (plain_event e) = option_map plain_view (step s e).
Proof.
  intros Hq Hns. destruct Hq as (A & B & C & D & E).
  destruct e as [dt|id|id o|h].
  - simpl. change (Plain.may_elapse dt (plain_view s)) with (may_elapse dt s).
    destruct (may_elapse dt s); reflexivity.
  - simpl. destruct (lookup_by (has_tid id) (timers s)) as [t|] eqn:Ht; [|reflexivity].
    destruct (N.eqb _ _); [|reflexivity].
    unfold Plain.fire, fire. simpl. rewrite Ht.
    rewrite (C t (proj1 (lookup_by_In _ _ _ Ht))). simpl.
    unfold Plain.ping, ping. simpl. destruct (hidden s); reflexivity.
  - assert (Hstep : forall po,
               po = (match o with Throws => Plain.Rejected | Body _ => Plain.Resolved end) ->
               Plain.step (plain_view s) (Plain.EvResponse id po)
               = option_map plain_view (step s (EvResponse id o))).
    { intros po ->. simpl.
      destruct (lookup_by (has_fid id) (fetches s)) as [f|] eqn:Hf; [|reflexivity].
      replace (Plain.is_rejected
                 match o with Throws => Plain.Rejected | Body _ => Plain.Resolved end)
        with (is_throws o) by (destruct o; reflexivity).
      destruct (_ || _); [|reflexivity].
      unfold Plain.deliver, deliver. simpl. rewrite Hf.
      rewrite (D f (proj1 (lookup_by_In _ _ _ Hf))).
      rewrite ping_resume_without_notice; auto.
      destruct o; unfold plain_view, Plain.ping_resume, Plain.console_log; simpl;
        rewrite map_app; reflexivity. }
    destruct o; apply Hstep; reflexivity.
  - simpl. destruct (Bool.eqb h (hidden s)); [reflexivity|].
    unfold visibility, on_visibilitychange, Plain.on_visibilitychange. simpl.
    destruct h.
    + unfold stopPinging, Plain.stopPinging. simpl.
      destruct (pingInterval s) eqn:Ep; unfold plain_view; simpl;
        rewrite ?Ep; reflexivity.
    + unfold startPinging, Plain.startPinging, ping, Plain.ping. simpl.
      destruct (pingInterval s) eqn:Ep; unfold plain_view; simpl;
        rewrite ?Ep; reflexivity.
Qed.

Lemma plain_init (h : bool) : Plain.init h = plain_view (init h).
Proof. destruct h; reflexivity. Qed.

(** X2. As long as no response is "starting", the variant with the
    notification and the poller does exactly what the plain variant of
    the script does on the same events: step by step the two hold the
    same clock, visibility, [pingInterval], timers, requests in flight
    and requests sent, and write corresponding lines to the console; an
    event is possible for one exactly when it is for the other. *)
Theorem plain_variant_agrees :
  forall (h : bool) (evs : list Event),
    Forall never_starting evs ->
    Plain.run (Plain.init h) (map plain_event evs)
    = option_map plain_view (run (init h) evs).
Proof.
  intros h evs Hns. rewrite plain_init.
  pose proof (quiet_init h) as Hq. revert Hq. generalize (init h).
  induction Hns as [|e evs He Hns IH]; intros s Hq; [reflexivity|].
  simpl. rewrite (plain_step e s Hq He).
  destruct (step s e) as [s1|] eqn:E; [|reflexivity].
  simpl. apply IH. eauto using quiet_step.
Qed.

Lemma plain_variant_agrees_witness :
  Plain.run (Plain.init false)
            (map plain_event [EvWait 100; EvResponse 0 running; EvWait 59900; EvTimer 1])
  = option_map plain_view
      (run (init false) [EvWait 100; EvResponse 0 running; EvWait 59900; EvTimer 1]).
Proof.
  apply plain_variant_agrees. repeat constructor; discriminate.
Defined.

(** ** One heartbeat timer, one attempt per session *)

(** X3. Whatever has happened, calls into the overlay included, the
    heartbeat loop owns at most one timer: none when [pingInterval] is
    [null], otherwise exactly the 60 s interval whose handle
    [pingInterval] holds; every other timer is a one-shot timeout. *)
Theorem heartbeat_timer_unique :
  forall (s : State),
    api_reachable s ->
    List.length (ping_timers s) <= 1 /\
    (pingInterval s = None -> ping_timers s = []) /\
    (forall id, pingInterval s = Some id ->
                exists d, ping_timers s = [mkTimer id d CbPing (Some PING_INTERVAL)]) /\
    (forall t, In t (timers s) -> t_cb t <> CbPing -> t_period t = None).
Proof.
  intros s Hr. pose proof (api_reachable_Inv s Hr) as HI.
  assert (Hsome : forall id, pingInterval s = Some id ->
            exists d, ping_timers s = [mkTimer id d CbPing (Some PING_INTERVAL)]).
  { intros id Hp.
    destruct (ping_timers_single s id HI Hp) as (t & Hpt & _ & Hid & Hcb & Hper & _).
    exists (t_due t). rewrite Hpt. destruct t; simpl in *. now subst. }
  split; [|split; [|split]]; auto.
  - destruct (pingInterval s) as [id|] eqn:Hp.
    + destruct (Hsome id eq_refl) as [d ->]. simpl. lia.
    + rewrite (ping_timers_none s HI Hp). simpl. lia.
  - now apply ping_timers_none.
  - intros t Ht Hcb. pose proof (inv_ping_timer s HI t Ht) as H.
    destruct (t_cb t); auto. congruence.
Qed.

Lemma heartbeat_timer_unique_witness :
  List.length (ping_timers session_started) <= 1 /\
  exists d, ping_timers session_started = [mkTimer 1 d CbPing (Some PING_INTERVAL)].
Proof.
  assert (Hr : api_reachable session_started).
  { apply reachable_api_reachable.
    exists false, [EvWait 100; EvResponse 0 starting]. vm_compute. reflexivity. }
  destruct (heartbeat_timer_unique session_started Hr) as (H1 & _ & H2 & _).
  split; [exact H1|]. exact (H2 1 eq_refl).
Defined.

Lemma count_fetch_sid (sid : nat) (l : list Fetch) :
  count_occ Nat.eq_dec (flat_map fetch_sid l) sid
  = List.length (filter (awaits_poll sid) l).
Proof.
  induction l as [|a l IH]; simpl; auto.
  unfold fetch_sid at 1, awaits_poll at 1. destruct (f_cont a) as [|x]; simpl; auto.
  destruct (Nat.eq_dec x sid) as [->|Hne].
  - rewrite Nat.eqb_refl. simpl. now rewrite IH.
  - apply Nat.eqb_neq in Hne. now rewrite Hne.
Qed.

Lemma count_timer_sid (sid : nat) (l : list Timer) :
  count_occ Nat.eq_dec (flat_map timer_sid l) sid
  = List.length (filter (runs_poll sid) l).
Proof.
  induction l as [|a l IH]; simpl; auto.
  unfold timer_sid at 1, runs_poll at 1. destruct (t_cb a) as [| | |x]; simpl; auto.
  destruct (Nat.eq_dec x sid) as [->|Hne].
  - rewrite Nat.eqb_refl. simpl. now rewrite IH.
  - apply Nat.eqb_neq in Hne. now rewrite Hne.
Qed.

(** X4. Within a poll session the attempts are strictly sequential: in
    every reachable state a session has at most one thing pending,
    either one request in flight or one timer for its next attempt,
    never two requests and never a request and a timer. *)
Theorem session_attempts_sequential :
  forall (s : State) (sid : nat),
    reachable s ->
    List.length (filter (awaits_poll sid) (fetches s))
    + List.length (filter (runs_poll sid) (timers s)) <= 1.
Proof.
  intros s sid Hr. pose proof (reachable_Inv s Hr) as HI.
  rewrite <- count_fetch_sid, <- count_timer_sid, <- count_occ_app.
  apply NoDup_count_occ. exact (inv_sid_nodup s HI).
Qed.

Lemma session_attempts_sequential_witness :
  List.length (filter (awaits_poll 1) (fetches session_started))
  + List.length (filter (runs_poll 1) (timers session_started)) <= 1.
Proof.
  apply session_attempts_sequential.
  exists false, [EvWait 100; EvResponse 0 starting]. vm_compute. reflexivity.
Defined.

(** ** What [hideNotification] does to the notice *)

Lemma visible_hideNotification (s : State) :
  Inv s -> visible (hideNotification s) = map faded (visible s).
Proof.
  intros HI. pose proof (inv_body s HI) as Hb.
  unfold hideNotification, visible.
  destruct (notificationEl s) as [e|] eqn:E; simpl; rewrite Hb; simpl; auto.
  rewrite update_nth_lookup. destruct (nth_error (heap s) e); reflexivity.
Qed.

Lemma lookup_fresh_timer (s : State) :
  Inv s -> forall y, In y (timers s) -> has_tid (next_timer s) y = false.
Proof.
  intros HI y Hy. unfold has_tid. apply Nat.eqb_neq.
  pose proof (inv_tid_fresh s HI y Hy). lia.
Qed.

(** X5. [hideNotification] on a displayed notice fades it at once and
    sets a removal timer due 300 ms later.  However long the event loop
    then lets time pass, it is at most these 300 ms, and the faded
    element is still attached.  If the loop can wait the full 300 ms,
    that is, if nothing else falls due before, the timer is due and its
    firing removes the notice: the body is empty, [notificationEl] is
    [null] and the timers are those from before the call. *)
Theorem hidden_notice_is_removed :
  forall (s : State) (e : nat),
    api_reachable s ->
    notificationEl s = Some e ->
    let s1 := hideNotification s in
    visible s1 = map faded (visible s) /\
    In (mkTimer (next_timer s) (now s + FADE_DELAY) CbFade None) (timers s1) /\
    (forall dt s', step s1 (EvWait dt) = Some s' ->
       (dt <= FADE_DELAY)%N /\
       visible s' = map faded (visible s) /\ timers s' = timers s1) /\
    (forall sw, step s1 (EvWait FADE_DELAY) = Some sw ->
       exists s2,
         step sw (EvTimer (next_timer s)) = Some s2 /\
         visible s2 = [] /\ notificationEl s2 = None /\ timers s2 = timers s).
Proof.
  intros s e Hr He s1. pose proof (api_reachable_Inv s Hr) as HI.
  pose proof (lookup_fresh_timer s HI) as Hfresh.
  assert (Ht : timers s1
               = timers s ++ [mkTimer (next_timer s) (now s + FADE_DELAY) CbFade None]).
  { subst s1. unfold hideNotification. now rewrite He. }
  assert (Hnow : now s1 = now s).
  { subst s1. unfold hideNotification. now rewrite He. }
  assert (Hin : In (mkTimer (next_timer s) (now s + FADE_DELAY) CbFade None) (timers s1)).
  { rewrite Ht. apply in_or_app. right. now left. }
  split; [|split; [|split]].
  - exact (visible_hideNotification s HI).
  - exact Hin.
  - intros dt s' Hs'. apply step_wait_inv in Hs' as [Hm ->].
    pose proof (may_elapse_timers _ _ Hm _ Hin) as Hle. cbn [t_due] in Hle.
    rewrite Hnow in Hle.
    split; [lia|]. split; [|reflexivity].
    exact (visible_hideNotification s HI).
  - intros sw Hsw. apply step_wait_inv in Hsw as [_ ->].
    unfold step, fire. cbn [timers elapse set_now now]. rewrite Ht.
    rewrite (lookup_by_app_new _ _ _ Hfresh) by (unfold has_tid; simpl; apply Nat.eqb_refl).
    cbn [t_due t_period t_cb].
    rewrite Hnow.
    rewrite N.eqb_refl.
    rewrite (remove_by_app_new _ _ _ Hfresh) by (unfold has_tid; simpl; apply Nat.eqb_refl).
    eexists. split; [reflexivity|].
    subst s1. unfold hideNotification. rewrite He. simpl.
    unfold fade_callback, visible. simpl. rewrite He. simpl.
    rewrite (inv_body s HI), He. simpl. rewrite Nat.eqb_refl. auto.
Qed.

Lemma hidden_notice_is_removed_witness :
  exists sw s2,
    acts session_started [CallHide; Turn (EvWait FADE_DELAY)] = Some sw /\
    step sw (EvTimer 2) = Some s2 /\
    visible s2 = [] /\ timers s2 = timers session_started.
Proof.
  assert (Hr : api_reachable session_started).
  { apply reachable_api_reachable.
    exists false, [EvWait 100; EvResponse 0 starting]. vm_compute. reflexivity. }
  destruct (hidden_notice_is_removed session_started 0 Hr eq_refl)
    as (_ & _ & _ & H).
  destruct (H (elapse FADE_DELAY (hideNotification session_started)) eq_refl)
    as (s2 & H1 & H2 & _ & H4).
  exists (elapse FADE_DELAY (hideNotification session_started)), s2.
  split; [reflexivity|]. split; [exact H1|]. split; [exact H2|exact H4].
Defined.

(** The condition on the wait matters.  With the fade timer of an
    earlier notice still pending, the loop cannot wait the 300 ms: the
    older timer is due after 150 ms and takes the notice down then. *)
Example older_fade_timer_comes_first :
  exists s sw s2,
    acts (init false)
         [ CallShow "A" "info"; CallHide; Turn (EvWait 100);
           CallShow "B" "info"; Turn (EvWait 50); CallHide ] = Some s /\
    map textContent (visible s) = ["B"] /\
    step s (EvWait FADE_DELAY) = None /\
    step s (EvWait 150) = Some sw /\
    step sw (EvTimer 2) = Some s2 /\
    now s2 = 300%N /\ visible s2 = [].
Proof.
  eexists. eexists. eexists.
  split; [vm_compute; reflexivity|].
  split; [reflexivity|].
  split; [vm_compute; reflexivity|].
  split; [vm_compute; reflexivity|].
  split; [vm_compute; reflexivity|].
  split; reflexivity.
Qed.

(** ** The answers to a poll attempt and to a heartbeat *)

Lemma showNotification_frame (m ty : string) (s : State) :
  timers (showNotification m ty s) = timers s /\
  next_timer (showNotification m ty s) = next_timer s /\
  now (showNotification m ty s) = now s /\
  requests (showNotification m ty s) = requests s /\
  fetches (showNotification m ty s) = fetches s.
Proof. unfold showNotification. destruct (notificationEl s); repeat split. Qed.

Lemma timers_hideNotification (s : State) :
  timers (hideNotification s)
  = timers s ++ match notificationEl s with
                | Some _ => [mkTimer (next_timer s) (now s + FADE_DELAY) CbFade None]
                | None => []
                end.
Proof.
  unfold hideNotification. destruct (notificationEl s); simpl; auto.
  now rewrite app_nil_r.
Qed.

Lemma active_sessions_hideNotification (s : State) :
  active_sessions (hideNotification s) = active_sessions s.
Proof.
  unfold active_sessions. rewrite timers_hideNotification, flat_map_app.
  replace (fetches (hideNotification s)) with (fetches s)
    by (unfold hideNotification; destruct (notificationEl s); reflexivity).
  destruct (notificationEl s); simpl; now rewrite app_nil_r.
Qed.

(** X6. When a poll attempt is answered "running", whatever was on
    display is replaced by the "ready" notice, unfaded; a single timer
    is added, which will call [hideNotification] 2 s later; the session
    is over and nothing is sent. *)
Theorem poll_answered_running :
  forall (s : State) (id : nat) (f : Fetch) (sid : nat),
    reachable s ->
    lookup_by (has_fid id) (fetches s) = Some f ->
    f_cont f = KPoll sid ->
    (now s < f_sent f + FETCH_TIMEOUT)%N ->
    exists s',
      step s (EvResponse id running) = Some s' /\
      visible s' = [notice_ready] /\
      ~ In sid (active_sessions s') /\
      timers s' = timers s
                  ++ [mkTimer (next_timer s) (now s + READY_DELAY) CbHideNotification None] /\
      requests s' = requests s.
Proof.
  intros s id f sid Hr Hf Hk Hlt.
  pose proof (reachable_Inv s Hr) as HI.
  destruct (Inv_take_fetch id f s HI Hf) as [HI0 Hfresh].
  destruct (Hfresh sid Hk) as [_ Hnot]. clear Hfresh.
  set (s0 := set_fetches (remove_by (has_fid id) (fetches s)) s) in *.
  destruct (showNotification_frame MSG_READY "success" s0) as (Et & En & Ew & Eq & Ef).
  exists (snd (setTimeout CbHideNotification READY_DELAY
                          (showNotification MSG_READY "success" s0))).
  split; [|split; [|split; [|split]]].
  - simpl. rewrite Hf. apply N.ltb_lt in Hlt. rewrite Hlt. simpl.
    unfold deliver. rewrite Hf, Hk. reflexivity.
  - exact (visible_showNotification MSG_READY "success" s0 HI0).
  - intros Hin. apply Hnot.
    apply (Permutation_in _ (active_sessions_new_timer _ _ _)) in Hin.
    simpl in Hin. now rewrite active_sessions_showNotification in Hin.
  - unfold setTimeout. cbn [snd timers set_next_timer set_timers].
    now rewrite Et, En, Ew.
  - unfold setTimeout. cbn [snd requests set_next_timer set_timers].
    exact Eq.
Qed.

Lemma poll_answered_running_witness :
  exists s',
    step session_started (EvResponse 1 running) = Some s' /\
    visible s' = [notice_ready].
Proof.
  assert (Hr : reachable session_started).
  { exists false, [EvWait 100; EvResponse 0 starting]. vm_compute. reflexivity. }
  destruct (poll_answered_running session_started 1 (mkFetch 1 100 (KPoll 1)) 1
              Hr eq_refl eq_refl eq_refl) as (s' & H1 & H2 & _).
  exists s'. split; [exact H1|exact H2].
Defined.

(** X7. When a poll attempt is answered with a state that is neither
    "running" nor "starting" (for instance "stopped", or no state at
    all), the session is over and the notice on display, if any, fades
    and gets a removal timer 300 ms ahead; nothing is sent. *)
Theorem poll_answered_otherwise :
  forall (s : State) (id : nat) (f : Fetch) (sid : nat) (st : option string),
    reachable s ->
    lookup_by (has_fid id) (fetches s) = Some f ->
    f_cont f = KPoll sid ->
    (now s < f_sent f + FETCH_TIMEOUT)%N ->
    state_is st "running" = false ->
    state_is st "starting" = false ->
    exists s',
      step s (EvResponse id (Body st)) = Some s' /\
      visible s' = map faded (visible s) /\
      ~ In sid (active_sessions s') /\
      timers s' = timers s
                  ++ match notificationEl s with
                     | Some _ => [mkTimer (next_timer s) (now s + FADE_DELAY) CbFade None]
                     | None => []
                     end /\
      requests s' = requests s.
Proof.
  intros s id f sid st Hr Hf Hk Hlt Hrun Hstart.
  pose proof (reachable_Inv s Hr) as HI.
  destruct (Inv_take_fetch id f s HI Hf) as [HI0 Hfresh].
  destruct (Hfresh sid Hk) as [_ Hnot]. clear Hfresh.
  set (s0 := set_fetches (remove_by (has_fid id) (fetches s)) s) in *.
  exists (hideNotification s0).
  split; [|split; [|split; [|split]]].
  - simpl. rewrite Hf. apply N.ltb_lt in Hlt. rewrite Hlt. simpl.
    unfold deliver. rewrite Hf, Hk. unfold poll_resume, checkState_resume.
    now rewrite Hrun, Hstart.
  - exact (visible_hideNotification s0 HI0).
  - now rewrite active_sessions_hideNotification.
  - exact (timers_hideNotification s0).
  - unfold hideNotification. destruct (notificationEl s0); reflexivity.
Qed.

Lemma poll_answered_otherwise_witness :
  exists s',
    step session_started (EvResponse 1 (Body (Some "stopped"))) = Some s' /\
    visible s' = [faded notice_starting].
Proof.
  assert (Hr : reachable session_started).
  { exists false, [EvWait 100; EvResponse 0 starting]. vm_compute. reflexivity. }
  destruct (poll_answered_otherwise session_started 1 (mkFetch 1 100 (KPoll 1)) 1
              (Some "stopped") Hr eq_refl eq_refl eq_refl eq_refl eq_refl)
    as (s' & H1 & H2 & _).
  exists s'. split; [exact H1|exact H2].
Defined.

(** X8. A heartbeat answered "running" makes the notice on display, if
    any, fade, with a removal timer 300 ms ahead, and that is all: the
    poll sessions that are active stay active and keep polling, the
    heartbeat loop is as before and nothing is sent. *)
Theorem heartbeat_answered_running :
  forall (s : State) (id : nat) (f : Fetch),
    reachable s ->
    lookup_by (has_fid id) (fetches s) = Some f ->
    f_cont f = KPing ->
    (now s < f_sent f + FETCH_TIMEOUT)%N ->
    exists s',
      step s (EvResponse id running) = Some s' /\
      visible s' = map faded (visible s) /\
      active_sessions s' = active_sessions s /\
      timers s' = timers s
                  ++ match notificationEl s with
                     | Some _ => [mkTimer (next_timer s) (now s + FADE_DELAY) CbFade None]
                     | None => []
                     end /\
      same_heartbeat s s' /\
      requests s' = requests s.
Proof.
  intros s id f Hr Hf Hk Hlt.
  pose proof (reachable_Inv s Hr) as HI.
  destruct (Inv_take_fetch id f s HI Hf) as [HI0 _].
  set (s0 := set_fetches (remove_by (has_fid id) (fetches s)) s) in *.
  assert (Hstep : step s (EvResponse id running)
                  = Some (console_log (LogPingSent (Some "running")) (hideNotification s0))).
  { simpl. rewrite Hf. apply N.ltb_lt in Hlt. rewrite Hlt. simpl.
    unfold deliver. rewrite Hf, Hk. reflexivity. }
  exists (console_log (LogPingSent (Some "running")) (hideNotification s0)).
  split; [exact Hstep|]. split; [|split; [|split; [|split]]].
  - exact (visible_hideNotification s0 HI0).
  - change (active_sessions (hideNotification s0) = active_sessions s).
    rewrite active_sessions_hideNotification.
    unfold active_sessions; simpl. f_equal.
    apply (flat_map_remove_by_nil _ _ _ f); auto.
    unfold fetch_sid. now rewrite Hk.
  - exact (timers_hideNotification s0).
  - simpl in Hstep. rewrite Hf in Hstep.
    apply N.ltb_lt in Hlt. rewrite Hlt in Hstep. simpl in Hstep.
    exact (same_heartbeat_deliver id running s _ Hstep).
  - change (requests (hideNotification s0) = requests s).
    unfold hideNotification. destruct (notificationEl s0); reflexivity.
Qed.

Lemma heartbeat_answered_running_witness :
  exists s',
    step tab_reentered (EvResponse 2 running) = Some s' /\
    visible s' = [faded notice_starting] /\
    active_sessions s' = [1].
Proof.
  assert (Hr : reachable tab_reentered).
  { exists false, [EvWait 100; EvResponse 0 starting; EvVisibility true; EvVisibility false].
    vm_compute. reflexivity. }
  destruct (heartbeat_answered_running tab_reentered 2 (mkFetch 2 100 KPing)
              Hr eq_refl eq_refl eq_refl)
    as (s' & H1 & H2 & H3 & _).
  exists s'. split; [exact H1|]. split; [exact H2|exact H3].
Defined.

(** ** The pace of a poll session *)

(** X9. In every reachable state: a poll attempt answered "starting"
    sends nothing and changes nothing on display, it only sets a timer
    for the next attempt, due exactly 2 s later, and time cannot pass
    beyond that moment; and a timer of a session that is due fires into
    exactly one request of that session, sent at that moment, and is
    gone. *)
Theorem poll_attempts_are_spaced :
  forall (s : State),
    reachable s ->
    (forall id f sid,
        lookup_by (has_fid id) (fetches s) = Some f ->
        f_cont f = KPoll sid ->
        (now s < f_sent f + FETCH_TIMEOUT)%N ->
        exists s1,
          step s (EvResponse id starting) = Some s1 /\
          requests s1 = requests s /\
          visible s1 = visible s /\
          timers s1 = timers s
                      ++ [mkTimer (next_timer s) (now s + POLL_DELAY) (CbPoll sid) None] /\
          (forall dt s2, step s1 (EvWait dt) = Some s2 -> (dt <= POLL_DELAY)%N)) /\
    (forall t sid,
        In t (timers s) -> t_cb t = CbPoll sid -> t_due t = now s ->
        exists s',
          step s (EvTimer (t_id t)) = Some s' /\
          requests s' = requests s ++ [mkRequest (now s) (KPoll sid)] /\
          fetches s' = fetches s
                       ++ [mkFetch (List.length (requests s)) (now s) (KPoll sid)] /\
          timers s' = remove_by (has_tid (t_id t)) (timers s) /\
          ~ In t (timers s')).
Proof.
  intros s Hr. pose proof (reachable_Inv s Hr) as HI. split.
  - intros id f sid Hf Hk Hlt.
    set (s0 := set_fetches (remove_by (has_fid id) (fetches s)) s).
    exists (snd (setTimeout (CbPoll sid) POLL_DELAY s0)).
    assert (Hstep : step s (EvResponse id starting)
                    = Some (snd (setTimeout (CbPoll sid) POLL_DELAY s0))).
    { simpl. rewrite Hf. apply N.ltb_lt in Hlt. rewrite Hlt. simpl.
      unfold deliver. rewrite Hf, Hk. reflexivity. }
    split; [exact Hstep|]. repeat split.
    intros dt s2 Hwait. unfold step in Hwait.
    destruct (may_elapse dt (snd (setTimeout (CbPoll sid) POLL_DELAY s0))) eqn:E;
      [|discriminate].
    pose proof (may_elapse_timers dt _ E
                  (mkTimer (next_timer s) (now s + POLL_DELAY) (CbPoll sid) None)) as H.
    simpl in H.
    assert (Hin : In (mkTimer (next_timer s) (now s + POLL_DELAY) (CbPoll sid) None)
                     (timers s ++ [mkTimer (next_timer s) (now s + POLL_DELAY)
                                           (CbPoll sid) None])).
    { apply in_or_app. right. now left. }
    specialize (H Hin). lia.
  - intros t sid Ht Hcb Hdue.
    destruct (lookup_by_some_of (has_tid (t_id t)) (timers s) t Ht) as [y Hy].
    { unfold has_tid. apply Nat.eqb_refl. }
    assert (y = t).
    { symmetry. apply (lookup_tid_unique (t_id t) y t s HI Hy Ht eq_refl). }
    subst y.
    pose proof (inv_ping_timer s HI t Ht) as Hper. rewrite Hcb in Hper.
    exists (poll sid (set_timers (remove_by (has_tid (t_id t)) (timers s)) s)).
    split; [|repeat split].
    + simpl. rewrite Hy, Hdue, N.eqb_refl. unfold fire. now rewrite Hy, Hper, Hcb.
    + simpl. intros Hin.
      pose proof (Permutation_map t_id (remove_by_perm _ _ _ Hy)) as Hperm.
      pose proof (Permutation_NoDup Hperm (inv_tid_nodup s HI)) as Hnd.
      simpl in Hnd. apply NoDup_cons_iff in Hnd as [Hnot _].
      apply Hnot. now apply in_map.
Qed.

Lemma poll_attempts_are_spaced_witness :
  exists s1,
    step session_started (EvResponse 1 starting) = Some s1 /\
    timers s1 = timers session_started ++ [mkTimer 2 (100 + POLL_DELAY) (CbPoll 1) None].
Proof.
  assert (Hr : reachable session_started).
  { exists false, [EvWait 100; EvResponse 0 starting]. vm_compute. reflexivity. }
  destruct (poll_attempts_are_spaced session_started Hr) as [H _].
  destruct (H 1 (mkFetch 1 100 (KPoll 1)) 1 eq_refl eq_refl eq_refl)
    as (s1 & H1 & _ & _ & H2 & _).
  exists s1. split; [exact H1|exact H2].
Defined.

(** ** Leaving and entering the tab *)

Lemma toggle_once (s : State) :
  reachable s -> hidden s = false ->
  exists s',
    run s [EvVisibility true; EvVisibility false] = Some s' /\
    reachable s' /\ hidden s' = false /\ now s' = now s /\
    requests s' = requests s ++ [mkRequest (now s) KPing] /\
    ping_timers s'
    = [mkTimer (next_timer s) (now s + PING_INTERVAL) CbPing (Some PING_INTERVAL)] /\
    next_timer s' = S (next_timer s).
Proof.
  intros Hr Hvis. pose proof (reachable_Inv s Hr) as HI.
  set (s1 := stopPinging (set_hidden true s)).
  assert (H1 : step s (EvVisibility true) = Some s1).
  { simpl. now rewrite Hvis. }
  assert (Hh1 : hidden s1 = true).
  { unfold s1, stopPinging. destruct (pingInterval (set_hidden true s)); reflexivity. }
  assert (Hp1 : pingInterval s1 = None).
  { unfold s1, stopPinging. destruct (pingInterval (set_hidden true s)) eqn:E; auto. }
  assert (HI1 : Inv s1) by (apply Inv_stopPinging, Inv_set_hidden, HI).
  pose proof (ping_timers_none s1 HI1 Hp1) as Hpt1.
  assert (Hfr : now s1 = now s /\ requests s1 = requests s /\ next_timer s1 = next_timer s).
  { unfold s1, stopPinging. destruct (pingInterval (set_hidden true s)); repeat split. }
  destruct Hfr as (Hn1 & Hq1 & Hx1).
  exists (startPinging (set_hidden false s1)).
  assert (H2 : step s1 (EvVisibility false) = Some (startPinging (set_hidden false s1))).
  { simpl. now rewrite Hh1. }
  split; [cbn [run]; rewrite H1, H2; reflexivity|].
  split; [eauto using reachable_step|].
  unfold startPinging, ping. simpl. rewrite Hp1. simpl.
  rewrite Hn1, Hq1, Hx1. repeat split.
  unfold ping_timers in *. simpl. rewrite filter_app, Hpt1. reflexivity.
Qed.

(** X10. Returning to the tab is not rate limited and restarts the
    interval: leaving and entering a visible tab [n] times in a row
    sends [n] heartbeats, all at that same instant, and after the last
    return the only heartbeat timer is a new one, due 60 s from then. *)
Theorem each_return_sends_a_heartbeat :
  forall (n : nat) (s : State),
    reachable s -> hidden s = false ->
    exists s',
      run s (toggles n) = Some s' /\
      hidden s' = false /\
      now s' = now s /\
      requests s' = requests s ++ repeat (mkRequest (now s) KPing) n /\
      (0 < n ->
       ping_timers s'
       = [mkTimer (next_timer s + n - 1) (now s + PING_INTERVAL)
                  CbPing (Some PING_INTERVAL)]).
Proof.
  induction n as [|n IH]; intros s Hr Hvis.
  - exists s. simpl. rewrite app_nil_r. repeat split; auto. lia.
  - destruct (toggle_once s Hr Hvis) as (s1 & Hrun1 & Hr1 & Hv1 & Hn1 & Hq1 & Hpt1 & Hx1).
    destruct (IH s1 Hr1 Hv1) as (s' & Hrun & Hv & Hn & Hq & Hpt).
    exists s'. split; [|split; [|split; [|split]]].
    + cbn [toggles run] in Hrun1 |- *.
      destruct (step s (EvVisibility true)) as [sa|]; [|discriminate].
      destruct (step sa (EvVisibility false)) as [sb|]; [|discriminate].
      injection Hrun1 as ->. exact Hrun.
    + exact Hv.
    + congruence.
    + rewrite Hq, Hq1, Hn1, <- app_assoc. reflexivity.
    + intros _. destruct n as [|n].
      * simpl in Hrun. injection Hrun as <-. rewrite Hpt1. f_equal. f_equal. lia.
      * rewrite Hpt by lia. rewrite Hx1, Hn1. f_equal. f_equal. lia.
Qed.

Lemma each_return_sends_a_heartbeat_witness :
  exists s',
    run (init false) (toggles 3) = Some s' /\
    requests s' = requests (init false) ++ repeat (mkRequest 0 KPing) 3.
Proof.
  assert (Hr : reachable (init false)) by (exists false, []; reflexivity).
  destruct (each_return_sends_a_heartbeat 3 (init false) Hr eq_refl)
    as (s' & H1 & _ & _ & H2 & _).
  exists s'. split; [exact H1|exact H2].
Defined.

(** ** Hiding twice *)

Lemma lookup_by_app_fresh {A : Type} (p : A -> bool) (l m : list A) :
  (forall y, In y l -> p y = false) -> lookup_by p (l ++ m) = lookup_by p m.
Proof.
  induction l as [|a l IH]; simpl; auto.
  intros H. rewrite (H a) by auto. auto.
Qed.

Lemma remove_by_app_fresh {A : Type} (p : A -> bool) (l m : list A) :
  (forall y, In y l -> p y = false) -> remove_by p (l ++ m) = l ++ remove_by p m.
Proof.
  induction l as [|a l IH]; simpl; auto.
  intros H. rewrite (H a) by auto. f_equal. auto.
Qed.

(** X11. [hideNotification] is called, the loop waits [dt] ms, and
    [hideNotification] is called again while the notice is still fading:
    two removal timers are pending, due 300 ms after their calls.  If the
    loop can wait until the first is due, firing it removes the notice.
    If the loop can then wait the [dt] ms until the second is due, that
    one finds [notificationEl] [null] and does nothing: the overlay stays
    empty and both timers are gone.  Each wait is a turn of the loop, so
    it is possible only when nothing else falls due in it. *)
Theorem hiding_twice_removes_once :
  forall (s : State) (e : nat) (dt : N) (sa sb : State),
    api_reachable s ->
    notificationEl s = Some e ->
    let a := next_timer s in
    step (hideNotification s) (EvWait dt) = Some sa ->
    step (hideNotification sa) (EvWait (FADE_DELAY - dt)) = Some sb ->
    (dt <= FADE_DELAY)%N /\
    acts s [ CallHide; Turn (EvWait dt); CallHide;
             Turn (EvWait (FADE_DELAY - dt)) ] = Some sb /\
    timers sb = timers s ++ [mkTimer a (now s + FADE_DELAY) CbFade None;
                             mkTimer (S a) (now s + dt + FADE_DELAY) CbFade None] /\
    exists s3,
      step sb (EvTimer a) = Some s3 /\
      visible s3 = [] /\ notificationEl s3 = None /\
      forall sc, step s3 (EvWait dt) = Some sc ->
        exists s4,
          step sc (EvTimer (S a)) = Some s4 /\
          visible s4 = [] /\ notificationEl s4 = None /\ timers s4 = timers s.
Proof.
  intros s e dt sa sb Hr He a Hsa Hsb. pose proof (api_reachable_Inv s Hr) as HI.
  assert (Hacts : acts s [ CallHide; Turn (EvWait dt); CallHide;
                           Turn (EvWait (FADE_DELAY - dt)) ] = Some sb).
  { cbn [acts act]. rewrite Hsa. rewrite Hsb. reflexivity. }
  apply step_wait_inv in Hsa as [Hm ->]. apply step_wait_inv in Hsb as [_ ->].
  assert (Hdt : (dt <= FADE_DELAY)%N).
  { assert (Hin : In (mkTimer (next_timer s) (now s + FADE_DELAY) CbFade None)
                     (timers (hideNotification s))).
    { unfold hideNotification. rewrite He. simpl. apply in_or_app. right. now left. }
    pose proof (may_elapse_timers _ _ Hm _ Hin) as Hle. cbn [t_due] in Hle.
    replace (now (hideNotification s)) with (now s) in Hle
      by (unfold hideNotification; now rewrite He).
    lia. }
  split; [exact Hdt|]. split; [exact Hacts|].
  clear Hacts Hm. subst a.
  pose proof (inv_body s HI) as Hb. rewrite He in Hb.
  assert (Hfa : forall y, In y (timers s) -> has_tid (next_timer s) y = false)
    by exact (lookup_fresh_timer s HI).
  assert (Hfb : forall y, In y (timers s) -> has_tid (S (next_timer s)) y = false).
  { intros y Hy. unfold has_tid. apply Nat.eqb_neq.
    pose proof (inv_tid_fresh s HI y Hy). lia. }
  clear Hr HI.
  destruct s as [nw hd pi ne hp bd ts nt fs rq cs].
  cbn [notificationEl body timers next_timer now] in *. subst ne bd.
  cbv [hideNotification elapse el_set_opacity setTimeout set_now set_heap set_timers
       set_next_timer notificationEl body timers next_timer now heap hidden
       pingInterval fetches requests console snd].
  rewrite <- app_assoc. cbn [app].
  split; [reflexivity|].
  eexists. split.
  { cbv [step fire set_timers timers now].
    rewrite (lookup_by_app_fresh _ _ _ Hfa).
    cbv [lookup_by find has_tid t_id]. rewrite Nat.eqb_refl.
    cbv [t_due t_period t_cb].
    replace (N.eqb (nw + FADE_DELAY) (nw + dt + (FADE_DELAY - dt))) with true
      by (symmetry; apply N.eqb_eq; unfold FADE_DELAY in *; lia).
    change (fun t : Timer => Nat.eqb (let (t_id, _, _, _) := t in t_id) nt)
      with (has_tid nt).
    rewrite (remove_by_app_fresh _ _ _ Hfa).
    cbv [remove_by has_tid t_id]. rewrite Nat.eqb_refl.
    cbv [run_callback fade_callback el_remove set_notificationEl set_body
         notificationEl body timers next_timer now heap hidden
         pingInterval fetches requests console filter].
    rewrite Nat.eqb_refl. cbv [negb]. reflexivity. }
  split.
  { cbv [visible body flat_map]. reflexivity. }
  split; [reflexivity|].
  intros sc Hsc. apply step_wait_inv in Hsc as [_ ->].
  eexists. split.
  { cbv [step fire set_timers timers now elapse set_now hidden pingInterval
         notificationEl heap body next_timer fetches requests console].
    rewrite (lookup_by_app_fresh _ _ _ Hfb).
    cbv [lookup_by find has_tid t_id]. rewrite Nat.eqb_refl.
    cbv [t_due t_period t_cb].
    replace (N.eqb (nw + dt + FADE_DELAY) (nw + dt + (FADE_DELAY - dt) + dt)) with true
      by (symmetry; apply N.eqb_eq; unfold FADE_DELAY in *; lia).
    change (fun t : Timer => Nat.eqb (let (t_id, _, _, _) := t in t_id) (S nt))
      with (has_tid (S nt)).
    rewrite (remove_by_app_fresh _ _ _ Hfb).
    cbv [remove_by has_tid t_id]. rewrite Nat.eqb_refl. rewrite app_nil_r.
    cbv [run_callback fade_callback notificationEl]. reflexivity. }
  repeat split.
Qed.

Lemma hiding_twice_removes_once_witness :
  exists sb s3 s4,
    acts session_started
         [ CallHide; Turn (EvWait 100); CallHide; Turn (EvWait 200) ] = Some sb /\
    step sb (EvTimer 2) = Some s3 /\
    visible s3 = [] /\
    acts s3 [ Turn (EvWait 100); Turn (EvTimer 3) ] = Some s4 /\
    visible s4 = [] /\ timers s4 = timers session_started.
Proof.
  assert (Hr : api_reachable session_started).
  { apply reachable_api_reachable.
    exists false, [EvWait 100; EvResponse 0 starting]. vm_compute. reflexivity. }
  destruct (hiding_twice_removes_once session_started 0 100%N
              (elapse 100 (hideNotification session_started))
              (elapse 200 (hideNotification
                             (elapse 100 (hideNotification session_started))))
              Hr eq_refl eq_refl eq_refl)
    as (_ & Ha & _ & s3 & H1 & H2 & _ & H).
  destruct (step s3 (EvWait 100)) as [sc|] eqn:Hw.
  - destruct (H sc eq_refl) as (s4 & H3 & H4 & _ & H5).
    exists (elapse 200 (hideNotification
                          (elapse 100 (hideNotification session_started)))), s3, s4.
    split; [exact Ha|]. split; [exact H1|]. split; [exact H2|].
    split; [|split; [exact H4|exact H5]].
    change (step sc (EvTimer 3) = Some s4) in H3.
    cbn [acts act]. rewrite Hw. rewrite H3. reflexivity.
  - exfalso. vm_compute in H1. injection H1 as <-. vm_compute in Hw. discriminate.
Defined.

(** ** A tab that is loaded in the background *)

(** X12. When the extension is set up on a hidden tab, no heartbeat is
    sent at setup, but the 60 s interval is armed all the same.  As long
    as the tab stays hidden its ticks fire and send nothing: no request
    is ever sent.  The first heartbeat leaves at the moment the tab
    becomes visible, and the interval armed at setup is kept, with its
    handle and its phase. *)
Theorem hidden_load_sends_nothing :
  forall (evs : list Event) (s : State),
    Forall not_visibility evs ->
    run (init true) evs = Some s ->
    requests s = [] /\
    hidden s = true /\
    pingInterval s = Some 1 /\
    (exists d, timers s = [mkTimer 1 d CbPing (Some PING_INTERVAL)]) /\
    exists s',
      step s (EvVisibility false) = Some s' /\
      requests s' = [mkRequest (now s) KPing] /\
      pingInterval s' = Some 1 /\
      timers s' = timers s.
Proof.
  intros evs s Hev Hrun.
  assert (HP : requests s = [] /\ fetches s = [] /\ hidden s = true /\
               pingInterval s = Some 1 /\
               exists d, timers s = [mkTimer 1 d CbPing (Some PING_INTERVAL)]).
  { assert (H0 : requests (init true) = [] /\ fetches (init true) = [] /\
                 hidden (init true) = true /\ pingInterval (init true) = Some 1 /\
                 exists d, timers (init true) = [mkTimer 1 d CbPing (Some PING_INTERVAL)]).
    { repeat split. eexists. reflexivity. }
    revert H0 Hrun. generalize (init true).
    induction Hev as [|e evs He Hev IH]; intros s0 H0 Hrun.
    - simpl in Hrun. now injection Hrun as <-.
    - cbn [run] in Hrun. destruct (step s0 e) as [s1|] eqn:E; [|discriminate].
      apply (IH s1); auto. clear IH Hrun.
      destruct H0 as (Hq & Hf & Hh & Hp & d & Ht).
      destruct e as [dt|id|id o|h].
      + simpl in E. destruct (may_elapse dt s0); [|discriminate]. injection E as <-.
        repeat split; auto. now exists d.
      + unfold step, fire in E. rewrite Ht in E.
        cbn [lookup_by find update_by] in E. unfold has_tid in E. cbn [t_id] in E.
        destruct (Nat.eqb 1 id) eqn:Eid; [|discriminate].
        cbn [t_due t_period t_cb run_callback] in E.
        destruct (N.eqb d (now s0)); [|discriminate].
        unfold ping in E. change (hidden (set_timers _ s0)) with (hidden s0) in E.
        rewrite Hh in E. injection E as <-.
        repeat split; auto. eexists. reflexivity.
      + simpl in E. rewrite Hf in E. simpl in E. discriminate.
      + contradiction. }
  destruct HP as (Hq & Hf & Hh & Hp & d & Ht).
  split; [exact Hq|]. split; [exact Hh|]. split; [exact Hp|].
  split; [now exists d|].
  eexists. split.
  - simpl. rewrite Hh. reflexivity.
  - unfold visibility, on_visibilitychange, startPinging, ping. simpl.
    rewrite Hp. simpl. rewrite Hq. repeat split. exact Hp.
Qed.

Lemma hidden_load_sends_nothing_witness :
  exists s,
    run (init true) [EvWait 60000; EvTimer 1; EvWait 100] = Some s /\
    requests s = [] /\
    exists s', step s (EvVisibility false) = Some s' /\
               requests s' = [mkRequest (now s) KPing].
Proof.
  assert (Hev : Forall not_visibility [EvWait 60000; EvTimer 1; EvWait 100]).
  { repeat constructor. }
  destruct (run (init true) [EvWait 60000; EvTimer 1; EvWait 100]) as [s|] eqn:Hrun.
  - exists s. split; [reflexivity|].
    destruct (hidden_load_sends_nothing _ s Hev Hrun)
      as (H1 & _ & _ & _ & s' & H2 & H3 & _).
    split; [exact H1|]. exists s'. split; [exact H2|exact H3].
  - vm_compute in Hrun. discriminate.
Defined.

(** ** The URL of the ping endpoint *)

Lemma append_inv_head (p a b : string) :
  String.append p a = String.append p b -> a = b.
Proof.
  induction p as [|c p IH]; simpl; auto.
  intros H. injection H as H. auto.
Qed.

Lemma list_ascii_of_append (a b : string) :
  list_ascii_of_string (String.append a b)
  = list_ascii_of_string a ++ list_ascii_of_string b.
Proof. induction a as [|c a IH]; simpl; auto. now rewrite IH. Qed.

Lemma append_inv_tail (a b q : string) :
  String.append a q = String.append b q -> a = b.
Proof.
  intros H. apply (f_equal list_ascii_of_string) in H.
  rewrite !list_ascii_of_append in H. apply app_inv_tail in H.
  rewrite <- (string_of_list_ascii_of_string a), <- (string_of_list_ascii_of_string b).
  now rewrite H.
Qed.

(** X13. The URL pinged is the plain-http URL of port 5000 on the host
    of the page, with the path of the manager's ping endpoint, and it
    determines the host: pages served from different hosts never ping
    the same URL. *)
Theorem ping_url_determines_host :
  forall (h1 h2 : string),
    getManagerPingUrl h1
    = String.append "http://" (String.append h1 ":5000/manager/api/ping") /\
    (getManagerPingUrl h1 = getManagerPingUrl h2 -> h1 = h2).
Proof.
  intros h1 h2. split; [reflexivity|].
  unfold getManagerPingUrl. intros H.
  apply append_inv_head in H. now apply append_inv_tail in H.
Qed.

Lemma ping_url_determines_host_witness :
  getManagerPingUrl "localhost" = "http://localhost:5000/manager/api/ping" /\
  (getManagerPingUrl "localhost" = getManagerPingUrl "localhost" -> "localhost" = "localhost").
Proof.
  destruct (ping_url_determines_host "localhost" "localhost") as [H1 H2].
  split; [exact H1|exact H2].
Defined.

(** ** No timer is set further ahead than its delay *)

Lemma sched_refl (s : State) : adds_on_schedule s s.
Proof. split; auto. Qed.

Lemma sched_trans (s1 s2 s3 : State) :
  adds_on_schedule s1 s2 -> adds_on_schedule s2 s3 -> adds_on_schedule s1 s3.
Proof.
  intros [N1 T1] [N2 T2]. split; [congruence|].
  intros x Hx. destruct (T2 x Hx) as [H|H]; auto.
  right. now rewrite <- N1.
Qed.

Lemma sched_same (s s' : State) :
  now s' = now s -> timers s' = timers s -> adds_on_schedule s s'.
Proof. intros Hn Ht. split; auto. intros x Hx. left. now rewrite <- Ht. Qed.

Lemma sched_new_timer (t : Timer) (n : nat) (s : State) :
  t_due t = (now s + delay_of (t_cb t))%N ->
  adds_on_schedule s (set_next_timer n (set_timers (timers s ++ [t]) s)).
Proof.
  intros H. split; auto. simpl. intros x Hx.
  apply in_app_or in Hx as [Hx|[<-|[]]]; auto.
Qed.

Lemma sched_remove (p : Timer -> bool) (s : State) :
  adds_on_schedule s (set_timers (remove_by p (timers s)) s).
Proof. split; auto. simpl. intros x Hx. left. eapply remove_by_In; eauto. Qed.

Lemma sched_showNotification (m ty : string) (s : State) :
  adds_on_schedule s (showNotification m ty s).
Proof.
  apply sched_same; unfold showNotification; destruct (notificationEl s); reflexivity.
Qed.

Lemma sched_hideNotification (s : State) : adds_on_schedule s (hideNotification s).
Proof.
  unfold hideNotification. destruct (notificationEl s) as [e|]; [|apply sched_refl].
  now apply (sched_new_timer _ _ (el_set_opacity e "0" s)).
Qed.

Lemma sched_fade_callback (s : State) : adds_on_schedule s (fade_callback s).
Proof.
  apply sched_same; unfold fade_callback; destruct (notificationEl s); reflexivity.
Qed.

Lemma sched_ping (s : State) : adds_on_schedule s (ping s).
Proof. apply sched_same; unfold ping; destruct (hidden s); reflexivity. Qed.

Lemma sched_checkState_resume (o : Outcome) (s : State) :
  adds_on_schedule s (fst (checkState_resume o s)).
Proof.
  destruct o as [|st]; unfold checkState_resume; [apply sched_refl|].
  destruct (state_is st "running"); cbn [fst].
  - eapply sched_trans; [apply (sched_showNotification MSG_READY "success")|].
    now apply sched_new_timer.
  - destruct (state_is st "starting"); cbn [fst];
      [apply sched_refl|apply sched_hideNotification].
Qed.

Lemma sched_poll_resume (sid : nat) (o : Outcome) (s : State) :
  adds_on_schedule s (poll_resume sid o s).
Proof.
  unfold poll_resume. pose proof (sched_checkState_resume o s) as H.
  destruct (checkState_resume o s) as [s1 done]; cbn [fst] in H.
  destruct done; auto.
  eapply sched_trans; [exact H|]. now apply sched_new_timer.
Qed.

Lemma sched_ping_resume (o : Outcome) (s : State) :
  adds_on_schedule s (ping_resume o s).
Proof.
  destruct o as [|st]; unfold ping_resume; [now apply sched_same|].
  apply (sched_trans _
           (if state_is st "starting"
            then pollUntilRunning (showNotification MSG_STARTING "info" s)
            else if state_is st "running" then hideNotification s else s));
    [|now apply sched_same].
  destruct (state_is st "starting").
  - eapply sched_trans; [apply (sched_showNotification MSG_STARTING "info")|].
    now apply sched_same.
  - destruct (state_is st "running"); [apply sched_hideNotification|apply sched_refl].
Qed.

Lemma sched_startPinging (s : State) : adds_on_schedule s (startPinging s).
Proof.
  unfold startPinging. eapply sched_trans; [apply sched_ping|].
  destruct (pingInterval (ping s)); [apply sched_refl|].
  apply (sched_trans _ (snd (setInterval CbPing PING_INTERVAL (ping s))));
    [|now apply sched_same].
  now apply sched_new_timer.
Qed.

Lemma sched_stopPinging (s : State) : adds_on_schedule s (stopPinging s).
Proof.
  unfold stopPinging. destruct (pingInterval s) as [id|]; [|apply sched_refl].
  apply (sched_trans _ (clearInterval id s)); [apply sched_remove|now apply sched_same].
Qed.

Lemma sched_run_callback (cb : Callback) (s : State) :
  adds_on_schedule s (run_callback cb s).
Proof.
  destruct cb; simpl.
  - apply sched_ping.
  - apply sched_fade_callback.
  - apply sched_hideNotification.
  - now apply sched_same.
Qed.

Lemma within_delay_sched (s s' : State) :
  within_delay s -> adds_on_schedule s s' -> within_delay s'.
Proof.
  intros H [Hn Ht] x Hx. rewrite Hn.
  destruct (Ht x Hx) as [Hin|Hnew]; auto. rewrite Hnew. lia.
Qed.

Lemma within_delay_step (e : Event) (s s' : State) :
  Inv s -> within_delay s -> step s e = Some s' -> within_delay s'.
Proof.
  intros HI Hw. destruct e as [dt|id|id o|h]; simpl.
  - destruct (may_elapse dt s); [|discriminate].
    intros H. injection H as <-. intros t Ht. simpl in *.
    specialize (Hw t Ht). lia.
  - destruct (lookup_by (has_tid id) (timers s)) as [t|] eqn:Ht; [|discriminate].
    destruct (N.eqb (t_due t) (now s)) eqn:Hdue; [|discriminate].
    apply N.eqb_eq in Hdue.
    unfold fire. rewrite Ht. intros H. injection H as <-.
    eapply within_delay_sched; [|apply sched_run_callback].
    destruct (lookup_by_In _ _ _ Ht) as [Hin _].
    pose proof (inv_ping_timer s HI t Hin) as Hshape.
    destruct (t_period t) as [p|] eqn:Hper.
    + intros x Hx. simpl in *. apply update_by_In in Hx.
      destruct Hx as [[Hx _]|[(y & Hy & ->)|[Hx _]]]; auto.
      assert (y = t) by congruence. subst y. simpl. rewrite Hdue.
      destruct (t_cb t); try discriminate.
      destruct Hshape as [_ Hp]. injection Hp as ->. simpl. lia.
    + eapply within_delay_sched; [exact Hw|apply sched_remove].
  - destruct (lookup_by (has_fid id) (fetches s)) as [f|] eqn:Hf; [|discriminate].
    destruct (_ || _); [|discriminate].
    unfold deliver. rewrite Hf. intros H. injection H as <-.
    apply (within_delay_sched (set_fetches (remove_by (has_fid id) (fetches s)) s)).
    + exact Hw.
    + destruct (f_cont f); [apply sched_ping_resume|apply sched_poll_resume].
  - destruct (Bool.eqb h (hidden s)); [discriminate|].
    intros H. injection H as <-.
    apply (within_delay_sched (set_hidden h s)); [exact Hw|].
    unfold visibility, on_visibilitychange.
    destruct (hidden (set_hidden h s)); [apply sched_stopPinging|apply sched_startPinging].
Qed.

Lemma within_delay_init (h : bool) : within_delay (init h).
Proof.
  apply (within_delay_sched (module_loaded h)).
  - intros t [].
  - unfold init, setup.
    apply (sched_trans _ (startPinging (module_loaded h)));
      [apply sched_startPinging|now apply sched_same].
Qed.

(** X14. In every reachable state each pending timer is due in the
    future and no further ahead than the delay it was registered with:
    the next attempt of a session within 2 s, the fade of the "ready"
    notice within 2 s, the removal of a fading notice within 300 ms, the
    next heartbeat tick within 60 s. *)
Theorem timers_within_their_delay :
  forall (s : State) (t : Timer),
    reachable s -> In t (timers s) ->
    (now s <= t_due t)%N /\ (t_due t <= now s + delay_of (t_cb t))%N.
Proof.
  intros s t Hr Ht. split.
  - apply (reachable_on_time s Hr t Ht).
  - revert t Ht. change (within_delay s).
    destruct Hr as (h & evs & H).
    pose proof (Inv_init h) as HI. pose proof (within_delay_init h) as Hw.
    revert H HI Hw. generalize (init h).
    induction evs as [|e evs IH]; simpl; intros s0 H HI Hw.
    + now injection H as <-.
    + destruct (step s0 e) as [s1|] eqn:E; [|discriminate].
      eauto using Inv_step, within_delay_step.
Qed.

Lemma timers_within_their_delay_witness :
  (now session_started <= 60000)%N /\
  (60000 <= now session_started + delay_of CbPing)%N.
Proof.
  assert (Hr : reachable session_started).
  { exists false, [EvWait 100; EvResponse 0 starting]. vm_compute. reflexivity. }
  exact (timers_within_their_delay session_started
           (mkTimer 1 60000 CbPing (Some PING_INTERVAL)) Hr (or_introl eq_refl)).
Defined.

(** ** A poll attempt that fails *)

(** X15. A poll attempt that fails (network error, timeout, unreadable
    body) can always be settled, also when its 5 s are up, and it ends
    its session without a retry: no timer is set and nothing is sent,
    the other sessions and the heartbeat loop are as before. *)
Theorem poll_attempt_failed :
  forall (s : State) (id : nat) (f : Fetch) (sid : nat),
    reachable s ->
    lookup_by (has_fid id) (fetches s) = Some f ->
    f_cont f = KPoll sid ->
    exists s',
      step s (EvResponse id Throws) = Some s' /\
      ~ In sid (active_sessions s') /\
      Permutation (active_sessions s) (sid :: active_sessions s') /\
      timers s' = timers s /\
      requests s' = requests s /\
      same_heartbeat s s'.
Proof.
  intros s id f sid Hr Hf Hk.
  destruct (Inv_take_fetch id f s (reachable_Inv s Hr) Hf) as [_ Hfresh].
  exists (set_fetches (remove_by (has_fid id) (fetches s)) s).
  split; [|split; [|split]].
  - simpl. rewrite Hf, orb_true_r. unfold deliver. now rewrite Hf, Hk.
  - apply (Hfresh sid Hk).
  - pose proof (active_sessions_take_fetch id f s Hf) as H.
    unfold fetch_sid in H. now rewrite Hk in H.
  - repeat split.
Qed.

Lemma poll_attempt_failed_witness :
  exists s',
    step session_started (EvResponse 1 Throws) = Some s' /\
    ~ In 1 (active_sessions s').
Proof.
  assert (Hr : reachable session_started).
  { exists false, [EvWait 100; EvResponse 0 starting]. vm_compute. reflexivity. }
  destruct (poll_attempt_failed session_started 1 (mkFetch 1 100 (KPoll 1)) 1
              Hr eq_refl eq_refl) as (s' & H1 & H2 & _).
  exists s'. split; [exact H1|exact H2].
Defined.
